(** * Seeding the master-integrations table

    A shallow embedding of [seed-master-integrations.py]: the two static
    service catalogues, the two feature sets, [get_table_name],
    [build_service_item], [seed_services], [verify_table] and [main],
    followed by the properties proved about them.

    Conventions of the embedding.
    - Python [int] is [Z]; [str] is [string]; a [set] of strings is a
      [gset string]; the counting dictionaries are [gmap string Z].
    - The dictionary literals of the catalogues all carry the same four
      keys, so a catalogue entry is a record; the read
      [service_config.get] of the description with an empty default is kept by making that one
      field optional.  The item handed to [put_item] is a record with one
      field per key of the dictionary literal that the code returns.
    - Everything outside the interpreter is a field of [World]: the clock
      read by [datetime.now], the outcome of building the table handle and
      of each storage call, the trace of the calls issued, the log records
      and the lines printed.  Effectful
      code runs in the monad [M], which threads the world and carries raised
      exceptions. *)

From stdpp Require Import gmap strings list fin_maps pretty sorting.

Open Scope string_scope.
Open Scope list_scope.
Open Scope Z_scope.

(** ** Data model *)

(** One entry of [AWS_SERVICES] or [M365_SERVICES]. *)
Module Config.
Record t := Make {
  service : string;
  displayName : string;
  category : string;
  description : option string
}.
End Config.

(** The value under one key of the [features] map of an item. *)
Record Feature := mkFeature {
  enabled : bool;
  feature_description : string
}.

Record Features := mkFeatures {
  cspm : Feature;
  assets : Feature;
  dataDiscovery : Feature
}.

(** The dictionary returned by [build_service_item]. *)
Record Item := mkItem {
  pk : string;
  provider : string;
  service : string;
  displayName : string;
  description : string;
  category : string;
  cspmEnabled : string;
  assetsEnabled : string;
  dataDiscoveryEnabled : string;
  features : Features;
  collectorName : string;
  createdAt : string;
  updatedAt : string;
  updatedBy : string
}.

(** The [stats] dictionary of [seed_services]. *)
Record Stats := mkStats {
  processed : Z;
  written : Z;
  errors : Z
}.

(** ** Static tables *)

Definition ASSETS_ENABLED_SERVICES : gset string :=
  {[ "iam"; "bedrock"; "ec2"; "lambda"; "ecs"; "eks";
     "entraid"; "intune" ]}.

Definition DATA_DISCOVERY_ENABLED_SERVICES : gset string :=
  {[ "s3"; "dynamodb"; "ec2"; "efs"; "fsx"; "neptune"; "rds"; "redshift";
     "sharepoint"; "onedrive" ]}.

Definition entry (s d c descr : string) : Config.t :=
  Config.Make s d c (Some descr).

Definition AWS_SERVICES : list Config.t := [
  (* Storage *)
  entry "s3" "S3 (Simple Storage Service)" "storage" "Object storage for data storage and retrieval";
  entry "efs" "EFS (Elastic File System)" "storage" "Fully managed elastic NFS file system";
  entry "fsx" "FSx" "storage" "Fully managed file systems (Windows, Lustre, ONTAP, OpenZFS)";
  entry "glacier" "S3 Glacier" "storage" "Low-cost archive storage";
  entry "backup" "AWS Backup" "storage" "Centralized backup service";
  entry "storagegateway" "Storage Gateway" "storage" "Hybrid cloud storage integration";
  entry "transfer" "Transfer Family" "storage" "SFTP, FTPS, and FTP transfers to S3";
  entry "dlm" "Data Lifecycle Manager" "storage" "Automated EBS snapshot and AMI management";
  entry "ecr" "ECR (Container Registry)" "storage" "Docker container image registry";
  (* Database *)
  entry "dynamodb" "DynamoDB" "database" "Fully managed NoSQL database";
  entry "rds" "RDS (Relational Database Service)" "database" "Managed relational databases";
  entry "documentdb" "DocumentDB" "database" "MongoDB-compatible document database";
  entry "neptune" "Neptune" "database" "Fully managed graph database";
  entry "redshift" "Redshift" "database" "Data warehouse service";
  entry "elasticache" "ElastiCache" "database" "In-memory caching (Redis, Memcached)";
  entry "memorydb" "MemoryDB" "database" "Redis-compatible in-memory database";
  entry "dax" "DAX (DynamoDB Accelerator)" "database" "In-memory cache for DynamoDB";
  entry "dms" "DMS (Database Migration Service)" "database" "Database migration and replication";
  (* Compute *)
  entry "ec2" "EC2 (Elastic Compute Cloud)" "compute" "Virtual servers in the cloud";
  entry "lambda" "Lambda" "compute" "Serverless compute service";
  entry "ecs" "ECS (Elastic Container Service)" "compute" "Docker container orchestration";
  entry "eks" "EKS (Elastic Kubernetes Service)" "compute" "Managed Kubernetes service";
  entry "elasticbeanstalk" "Elastic Beanstalk" "compute" "Application deployment platform";
  entry "apprunner" "App Runner" "compute" "Containerized web app deployment";
  entry "autoscaling" "Auto Scaling" "compute" "Automatic scaling for EC2";
  entry "emr" "EMR (Elastic MapReduce)" "compute" "Big data processing framework";
  entry "appstream" "AppStream 2.0" "compute" "Application streaming service";
  entry "workspaces" "WorkSpaces" "compute" "Virtual desktops in the cloud";
  (* Security *)
  entry "iam" "IAM (Identity and Access Management)" "security" "Access control and identity management";
  entry "guardduty" "GuardDuty" "security" "Intelligent threat detection";
  entry "securityhub" "Security Hub" "security" "Security and compliance center";
  entry "macie" "Macie" "security" "Sensitive data discovery";
  entry "inspector" "Inspector" "security" "Automated security assessment";
  entry "waf" "WAF (Web Application Firewall)" "security" "Web application firewall";
  entry "shield" "Shield" "security" "DDoS protection";
  entry "config" "AWS Config" "security" "Resource configuration tracking";
  entry "kms" "KMS (Key Management Service)" "security" "Encryption key management";
  entry "secretsmanager" "Secrets Manager" "security" "Secrets rotation and management";
  entry "accessanalyzer" "IAM Access Analyzer" "security" "Resource access analysis";
  entry "acm" "ACM (Certificate Manager)" "security" "SSL/TLS certificate management";
  entry "cognito" "Cognito" "security" "User authentication and authorization";
  entry "fms" "Firewall Manager" "security" "Central firewall rule management";
  entry "networkfirewall" "Network Firewall" "security" "Managed network firewall";
  (* Networking *)
  entry "vpc" "VPC (Virtual Private Cloud)" "networking" "Isolated cloud network";
  entry "elb" "ELB Classic" "networking" "Classic load balancer";
  entry "elbv2" "ELB v2 (ALB/NLB)" "networking" "Application and network load balancers";
  entry "route53" "Route 53" "networking" "DNS and domain management";
  entry "cloudfront" "CloudFront" "networking" "Content delivery network (CDN)";
  entry "directconnect" "Direct Connect" "networking" "Dedicated network connection";
  entry "globalaccelerator" "Global Accelerator" "networking" "Global network performance optimization";
  entry "apigatewayv2" "API Gateway v2" "networking" "HTTP and WebSocket APIs";
  entry "apigateway" "API Gateway" "networking" "REST API management";
  (* AI/ML *)
  entry "bedrock" "Bedrock" "ai_ml" "Foundation models for generative AI";
  entry "sagemaker" "SageMaker" "ai_ml" "Machine learning platform";
  entry "amazon_q" "Amazon Q" "ai_ml" "AI-powered assistant";
  (* Analytics *)
  entry "athena" "Athena" "analytics" "Interactive query service for S3";
  entry "glue" "Glue" "analytics" "ETL and data catalog service";
  entry "kinesis" "Kinesis Data Streams" "analytics" "Real-time data streaming";
  entry "firehose" "Kinesis Firehose" "analytics" "Data delivery to destinations";
  entry "opensearch" "OpenSearch" "analytics" "Search and analytics engine";
  entry "lakeformation" "Lake Formation" "analytics" "Data lake management";
  entry "msk" "MSK (Managed Streaming for Kafka)" "analytics" "Managed Apache Kafka";
  (* Integration/Messaging *)
  entry "sns" "SNS (Simple Notification Service)" "integration" "Pub/sub messaging";
  entry "sqs" "SQS (Simple Queue Service)" "integration" "Message queuing";
  entry "ses" "SES (Simple Email Service)" "integration" "Email sending and receiving";
  entry "eventbridge" "EventBridge" "integration" "Serverless event bus";
  entry "stepfunctions" "Step Functions" "integration" "Workflow orchestration";
  entry "mq" "Amazon MQ" "integration" "Managed message broker";
  entry "appsync" "AppSync" "integration" "Managed GraphQL service";
  entry "amplify" "Amplify" "integration" "Full-stack app development";
  entry "iot" "IoT Core" "integration" "IoT device connectivity";
  (* Management *)
  entry "cloudtrail" "CloudTrail" "management" "AWS API logging and auditing";
  entry "cloudwatch" "CloudWatch" "management" "Monitoring and observability";
  entry "cloudformation" "CloudFormation" "management" "Infrastructure as code";
  entry "ssm" "Systems Manager" "management" "Operations management";
  entry "organizations" "Organizations" "management" "Multi-account management";
  entry "ram" "RAM (Resource Access Manager)" "management" "Cross-account resource sharing";
  entry "servicecatalog" "Service Catalog" "management" "IT service catalog";
  entry "directoryservice" "Directory Service" "management" "Managed Active Directory";
  entry "drs" "DRS (Disaster Recovery Service)" "management" "Disaster recovery";
  entry "codebuild" "CodeBuild" "management" "Build service";
  entry "codepipeline" "CodePipeline" "management" "CI/CD pipelines";
  entry "codedeploy" "CodeDeploy" "management" "Deployment automation"
].

Definition M365_SERVICES : list Config.t := [
  entry "entraid" "Entra ID (Azure AD)" "identity" "Users, groups, and identity management";
  entry "intune" "Intune" "management" "Device management and compliance";
  entry "sharepoint" "SharePoint Online" "collaboration" "Document management and collaboration";
  entry "onedrive" "OneDrive for Business" "storage" "Personal cloud storage"
].

(** [def get_table_name(environment)]: the argument is not read. *)
Definition get_table_name (environment : string) : string :=
  "master-integrations".

(** ** The world outside the interpreter *)

(** What a call into the storage client does: it returns, or it raises an
    [Exception] whose [str] is [e]. *)
Inductive outcome (A : Type) :=
  | Returns (a : A)
  | Throws (e : string).
Arguments Returns {A} a.
Arguments Throws {A} e.

(** The dictionary returned by [table.scan]: only the keys ['Items'] and
    ['LastEvaluatedKey'] are read.  The attributes of a stored item that
    [verify_table] reads are strings. *)
Record ScanResponse := mkScanResponse {
  Items : option (list (gmap string string));
  LastEvaluatedKey : option (gmap string string)
}.

Inductive level := INFO | ERROR.

Record World := mkWorld {
  (** what the n-th construction of the table handle does (the statements
      [boto3.resource('dynamodb')] and [dynamodb.Table(table_name)], which
      send no request but raise when the client cannot be set up), and the
      table names of the constructions so far, oldest first *)
  table_outcome : nat → outcome ();
  table_calls : list string;
  (** the value of [datetime.now(timezone.utc).isoformat()] at its n-th
      evaluation, and the number of evaluations so far *)
  clock : nat → string;
  ticks : nat;
  (** what the n-th call of [table.put_item] does, and the items passed to
      the calls issued so far, oldest first *)
  put_item_outcome : nat → outcome ();
  put_calls : list Item;
  (** what the n-th call of [table.scan] does, and the [ExclusiveStartKey]
      of the calls issued so far, oldest first *)
  scan_outcome : nat → outcome ScanResponse;
  scan_calls : list (option (gmap string string));
  (** records emitted through [logger], lines written by [print] *)
  log : list (level * string);
  stdout : list string
}.

(** How a computation ends: with a value, with a raised exception, or cut
    off by the bound put on the pagination loop of [verify_table]. *)
Inductive result (A : Type) :=
  | Ok (a : A)
  | Raise (e : string)
  | OutOfFuel.
Arguments Ok {A} a.
Arguments Raise {A} e.
Arguments OutOfFuel {A}.

Definition M (A : Type) : Type := World → result A * World.

#[global] Instance M_ret : MRet M := λ A a w, (Ok a, w).

#[global] Instance M_bind : MBind M := λ A B f m w,
  match m w with
  | (Ok a, w') => f a w'
  | (Raise e, w') => (Raise e, w')
  | (OutOfFuel, w') => (OutOfFuel, w')
  end.

(** [try: body except Exception as e: handler(e)] *)
Definition try_except {A} (body : M A) (handler : string → M A) : M A :=
  λ w,
    match body w with
    | (Raise e, w') => handler e w'
    | r => r
    end.

Definition out_of_fuel {A} : M A := λ w, (OutOfFuel, w).

(** [for x in l: acc = body(acc, x)] *)
Fixpoint for_each {A S} (l : list A) (body : S → A → M S) (acc : S) : M S :=
  match l with
  | [] => mret acc
  | x :: l' => acc' ← body acc x; for_each l' body acc'
  end.

Definition utcnow_isoformat : M string := λ w,
  (Ok (clock w (ticks w)),
   mkWorld (table_outcome w) (table_calls w) (clock w) (S (ticks w)) (put_item_outcome w) (put_calls w)
           (scan_outcome w) (scan_calls w) (log w) (stdout w)).

Definition emit (l : level) (msg : string) : M () := λ w,
  (Ok (),
   mkWorld (table_outcome w) (table_calls w) (clock w) (ticks w) (put_item_outcome w) (put_calls w)
           (scan_outcome w) (scan_calls w) (log w ++ [(l, msg)]) (stdout w)).

Definition logger_info : string → M () := emit INFO.
Definition logger_error : string → M () := emit ERROR.

Definition print (line : string) : M () := λ w,
  (Ok (),
   mkWorld (table_outcome w) (table_calls w) (clock w) (ticks w) (put_item_outcome w) (put_calls w)
           (scan_outcome w) (scan_calls w) (log w) (stdout w ++ [line])).

(** [table.put_item(Item=item)]: the call is issued, then it returns or
    raises as the world decides. *)
Definition put_item (item : Item) : M () := λ w,
  let w' := mkWorld (table_outcome w) (table_calls w) (clock w) (ticks w) (put_item_outcome w)
                    (put_calls w ++ [item])
                    (scan_outcome w) (scan_calls w) (log w) (stdout w) in
  match put_item_outcome w (length (put_calls w)) with
  | Returns _ => (Ok (), w')
  | Throws e => (Raise e, w')
  end.

(** [table.scan()] and [table.scan(ExclusiveStartKey=key)] *)
Definition scan (key : option (gmap string string)) : M ScanResponse := λ w,
  let w' := mkWorld (table_outcome w) (table_calls w) (clock w) (ticks w) (put_item_outcome w) (put_calls w)
                    (scan_outcome w) (scan_calls w ++ [key])
                    (log w) (stdout w) in
  match scan_outcome w (length (scan_calls w)) with
  | Returns r => (Ok r, w')
  | Throws e => (Raise e, w')
  end.

(** [dynamodb = boto3.resource('dynamodb')] followed by
    [table = dynamodb.Table(table_name)]: the handle is asked for, then the
    two statements return or raise as the world decides. *)
Definition dynamodb_table (table_name : string) : M () := λ w,
  let w' := mkWorld (table_outcome w) (table_calls w ++ [table_name])
                    (clock w) (ticks w) (put_item_outcome w) (put_calls w)
                    (scan_outcome w) (scan_calls w) (log w) (stdout w) in
  match table_outcome w (length (table_calls w)) with
  | Returns _ => (Ok (), w')
  | Throws e => (Raise e, w')
  end.

(** ** String helpers of the Python code *)

(** ["=" * 80] *)
Fixpoint str_repeat (s : string) (n : nat) : string :=
  match n with
  | O => EmptyString
  | S n' => s +:+ str_repeat s n'
  end.

Definition newline : string := String (Ascii.ascii_of_nat 10) EmptyString.

(** [x in s] for a set of strings *)
Definition member (x : string) (s : gset string) : bool := bool_decide (x ∈ s).

(** ["true" if b else "false"] *)
Definition flag (b : bool) : string := if b then "true" else "false".

(** Stable insertion sort on a key, the order of [sorted(l, key=...)]; Python
    compares strings by code point, which on byte strings is
    [String.leb]. *)
Fixpoint insert_by {A} (key : A → string) (x : A) (l : list A) : list A :=
  match l with
  | [] => [x]
  | y :: l' =>
      if String.leb (key x) (key y) then x :: y :: l'
      else y :: insert_by key x l'
  end.

Definition sorted_by {A} (key : A → string) (l : list A) : list A :=
  foldr (insert_by key) [] l.

(** [sorted(d.items())]: the keys of a dictionary are distinct, so the
    pairs are ordered by key alone. *)
Definition sorted_items (d : gmap string Z) : list (string * Z) :=
  sorted_by fst (map_to_list d).

(** [sorted(s)] for a set of strings *)
Definition sorted_set (s : gset string) : list string :=
  sorted_by id (elements s).

(** [d[k] = d.get(k, 0) + 1] *)
Definition tally (k : string) (d : gmap string Z) : gmap string Z :=
  <[k := default 0 (d !! k) + 1]> d.

(** ** [build_service_item] *)

Definition build_service_item (service_config : Config.t) (provider : string)
  : M Item :=
  let service_name := Config.service service_config in
  now ← utcnow_isoformat;
  let cspm_enabled := true in
  let assets_enabled := member service_name ASSETS_ENABLED_SERVICES in
  let data_discovery_enabled :=
    member service_name DATA_DISCOVERY_ENABLED_SERVICES in
  mret {|
    pk := provider +:+ "#" +:+ service_name;
    provider := provider;
    service := service_name;
    displayName := Config.displayName service_config;
    description := default EmptyString (Config.description service_config);
    category := Config.category service_config;
    cspmEnabled := flag cspm_enabled;
    assetsEnabled := flag assets_enabled;
    dataDiscoveryEnabled := flag data_discovery_enabled;
    features := {|
      cspm := mkFeature cspm_enabled "Cloud Security Posture Management checks";
      assets := mkFeature assets_enabled "Asset inventory tracking";
      dataDiscovery :=
        mkFeature data_discovery_enabled "Data discovery and classification"
    |};
    collectorName := service_name;
    createdAt := now;
    updatedAt := now;
    updatedBy := "system"
  |}.

(** ** [seed_services] *)

(** The three locals that the loop of [seed_services] updates. *)
Record Counters := mkCounters {
  stats : Stats;
  items_by_category : gmap string Z;
  items_by_provider : gmap string Z
}.

(** [all_services]: every AWS entry paired with ["aws"], then every M365
    entry paired with ["m365"]. *)
Definition all_services : list (Config.t * string) :=
  map (λ service_config, (service_config, "aws")) AWS_SERVICES ++
  map (λ service_config, (service_config, "m365")) M365_SERVICES.

(** One pass through the body of [for service_config, provider in
    all_services]. *)
Definition seed_one (dry_run : bool) (c : Counters)
    (e : Config.t * string) : M Counters :=
  let '(service_config, provider) := e in
  let stats :=
    mkStats (processed (stats c) + 1) (written (stats c)) (errors (stats c)) in
  item ← build_service_item service_config provider;
  let category := Config.category service_config in
  let items_by_category := tally category (items_by_category c) in
  let items_by_provider := tally provider (items_by_provider c) in
  if dry_run then
    let features : list string := [] in
    let features :=
      if String.eqb (cspmEnabled item) "true"
      then features ++ ["CSPM"] else features in
    let features :=
      if String.eqb (assetsEnabled item) "true"
      then features ++ ["Assets"] else features in
    let features :=
      if String.eqb (dataDiscoveryEnabled item) "true"
      then features ++ ["DataDiscovery"] else features in
    logger_info ("  [DRY RUN] " +:+ pk item +:+ ": " +:+
                 String.concat ", " features);;
    mret (mkCounters
            (mkStats (processed stats) (written stats + 1) (errors stats))
            items_by_category items_by_provider)
  else
    stats ← try_except
      (put_item item;;
       logger_info ("  Written: " +:+ pk item);;
       mret (mkStats (processed stats) (written stats + 1) (errors stats)))
      (λ e,
       logger_error ("  Error writing " +:+ pk item +:+ ": " +:+ e);;
       mret (mkStats (processed stats) (written stats) (errors stats + 1)));
    mret (mkCounters stats items_by_category items_by_provider).

(** The lines written by the [print] calls that close [seed_services]. *)
Definition print_summary (c : Counters) : M () :=
  print (newline +:+ str_repeat "=" 80);;
  print "Seeding Summary";;
  print (str_repeat "=" 80);;
  print ("Total services: " +:+ pretty (processed (stats c)));;
  print ("Written: " +:+ pretty (written (stats c)));;
  print ("Errors: " +:+ pretty (errors (stats c)));;
  print (newline +:+ "By provider:");;
  for_each (sorted_items (items_by_provider c))
    (λ _ '(provider, count), print ("  " +:+ provider +:+ ": " +:+ pretty count))
    ();;
  print (newline +:+ "By category:");;
  for_each (sorted_items (items_by_category c))
    (λ _ '(category, count), print ("  " +:+ category +:+ ": " +:+ pretty count))
    ();;
  let assets_services := sorted_set ASSETS_ENABLED_SERVICES in
  let data_discovery_services := sorted_set DATA_DISCOVERY_ENABLED_SERVICES in
  print (newline +:+ "Feature coverage:");;
  print ("  CSPM: " +:+ pretty (processed (stats c)) +:+ " services (all)");;
  print ("  Assets: " +:+ pretty (Z.of_nat (length assets_services)) +:+
         " services (" +:+ String.concat ", " assets_services +:+ ")");;
  print ("  Data Discovery: " +:+
         pretty (Z.of_nat (length data_discovery_services)) +:+
         " services (" +:+ String.concat ", " data_discovery_services +:+ ")");;
  print (str_repeat "=" 80).

(** The table handle is built after the opening log record, in a real run
    only, and outside any [try]: an exception raised there leaves
    [seed_services]. *)
Definition seed_services (environment : string) (dry_run : bool) : M Stats :=
  let table_name := get_table_name environment in
  logger_info ((if dry_run then "[DRY RUN] " else EmptyString) +:+
               "Seeding services to table: " +:+ table_name);;
  (if negb dry_run then dynamodb_table table_name else mret ());;
  c ← for_each all_services (seed_one dry_run)
        (mkCounters (mkStats 0 0 0) ∅ ∅);
  print_summary c;;
  mret (stats c).

(** A world in which nothing has happened yet, the table handle can be
    built, every write and every read succeeds, and the clock shows the same
    instant at each reading. *)
Definition calm : World := {|
  table_outcome := λ _, Returns ();
  table_calls := [];
  clock := λ _, "2025-01-01T00:00:00+00:00";
  ticks := 0;
  put_item_outcome := λ _, Returns ();
  put_calls := [];
  scan_outcome := λ _, Returns (mkScanResponse (Some []) None);
  scan_calls := [];
  log := [];
  stdout := []
|}.

Definition with_put_item_outcome (f : nat → outcome ()) (w : World) : World :=
  mkWorld (table_outcome w) (table_calls w) (clock w) (ticks w) f (put_calls w)
          (scan_outcome w) (scan_calls w) (log w) (stdout w).

Definition with_scan_outcome (f : nat → outcome ScanResponse) (w : World)
  : World :=
  mkWorld (table_outcome w) (table_calls w) (clock w) (ticks w) (put_item_outcome w) (put_calls w)
          f (scan_calls w) (log w) (stdout w).

(** ** [verify_table] *)

(** [item.get(k, d)] on a stored item *)
Definition get_or (k d : string) (item : gmap string string) : string :=
  default d (item !! k).

(** [while 'LastEvaluatedKey' in response]: each turn issues one more
    [scan] and extends [items].  The loop has no bound of its own (it runs
    for as long as the storage keeps answering with a continuation key), so
    the model takes one: [fuel] is the number of continuation reads allowed
    before the run is reported as [OutOfFuel]. *)
Fixpoint scan_rest (fuel : nat) (response : ScanResponse)
    (items : list (gmap string string)) : M (list (gmap string string)) :=
  match LastEvaluatedKey response with
  | None => mret items
  | Some key =>
      match fuel with
      | O => out_of_fuel
      | S fuel' =>
          response ← scan (Some key);
          scan_rest fuel' response
            (items ++ default [] (Items response))
      end
  end.

(** The five counters of the tallying loop of [verify_table]. *)
Record Tally := mkTally {
  by_provider : gmap string Z;
  by_category : gmap string Z;
  cspm_count : Z;
  assets_count : Z;
  data_discovery_count : Z
}.

Definition count_item (t : Tally) (item : gmap string string) : Tally :=
  let provider := get_or "provider" "unknown" item in
  let category := get_or "category" "unknown" item in
  mkTally
    (tally provider (by_provider t))
    (tally category (by_category t))
    (if bool_decide (item !! "cspmEnabled" = Some "true")
     then cspm_count t + 1 else cspm_count t)
    (if bool_decide (item !! "assetsEnabled" = Some "true")
     then assets_count t + 1 else assets_count t)
    (if bool_decide (item !! "dataDiscoveryEnabled" = Some "true")
     then data_discovery_count t + 1 else data_discovery_count t).

(** [f"  - [{item.get('provider')}] {item.get('service')}:
    {item.get('displayName')}"]: a missing key is rendered as [None]. *)
Definition feature_line (item : gmap string string) : string :=
  "  - [" +:+ get_or "provider" "None" item +:+ "] " +:+
  get_or "service" "None" item +:+ ": " +:+ get_or "displayName" "None" item.

(** [for item in sorted(items, key=pk): if item.get(k) == 'true': print] *)
Definition print_feature_list (k : string)
    (items : list (gmap string string)) : M () :=
  for_each (sorted_by (get_or "pk" EmptyString) items)
    (λ _ item,
       if bool_decide (item !! k = Some "true")
       then print (feature_line item) else mret ())
    ().

(** The body of the [try] block. *)
Definition verify_body (fuel : nat) : M () :=
  response ← scan None;
  let items := default [] (Items response) in
  items ← scan_rest fuel response items;
  print ("Total items: " +:+ pretty (Z.of_nat (length items)));;
  let t := foldl count_item (mkTally ∅ ∅ 0 0 0) items in
  print (newline +:+ "By provider:");;
  for_each (sorted_items (by_provider t))
    (λ _ '(provider, count), print ("  " +:+ provider +:+ ": " +:+ pretty count))
    ();;
  print (newline +:+ "By category:");;
  for_each (sorted_items (by_category t))
    (λ _ '(category, count), print ("  " +:+ category +:+ ": " +:+ pretty count))
    ();;
  print (newline +:+ "Feature coverage:");;
  print ("  CSPM enabled: " +:+ pretty (cspm_count t));;
  print ("  Assets enabled: " +:+ pretty (assets_count t));;
  print ("  Data Discovery enabled: " +:+ pretty (data_discovery_count t));;
  print (newline +:+ "Services with Assets feature:");;
  print_feature_list "assetsEnabled" items;;
  print (newline +:+ "Services with Data Discovery feature:");;
  print_feature_list "dataDiscoveryEnabled" items.

(** The table handle is built first, before the heading is printed and
    before the [try]: an exception raised there leaves [verify_table]. *)
Definition verify_table (fuel : nat) (environment : string) : M () :=
  let table_name := get_table_name environment in
  dynamodb_table table_name;;
  print ("Verifying master-integrations table: " +:+ table_name);;
  print (str_repeat "=" 80);;
  try_except (verify_body fuel)
    (λ e, print ("Error verifying table: " +:+ e));;
  print (str_repeat "=" 80).

(** ** [main] *)

(** The namespace returned by [parser.parse_args()]: [--environment] (one
    of the three choices), [--dry-run] and [--verify].  Parsing the command
    line is the work of [argparse] and stays outside the model. *)
Module Args.
Record t := Make {
  environment : string;
  dry_run : bool;
  verify : bool
}.
End Args.

(** [main], from the parsed arguments on.  [fuel] bounds the pagination loop
    of [verify_table]. *)
Definition main (fuel : nat) (args : Args.t) : M () :=
  if Args.verify args then
    verify_table fuel (Args.environment args)
  else
    stats ← seed_services (Args.environment args) (Args.dry_run args);
    if negb (Args.dry_run args) && (errors stats =? 0) then
      print (newline +:+ "Run with --verify to check seeded data")
    else mret ().

(** * Vocabulary of the statements *)

(** [ensures m w Q]: run from [w], [m] returns normally, and its value and
    final world satisfy [Q]. *)
Definition ensures {A} (m : M A) (w : World) (Q : A → World → Prop) : Prop :=
  ∃ a w', m w = (Ok a, w') ∧ Q a w'.

(** Two items agree on every field other than the two timestamps. *)
Definition agree_except_timestamps (i1 i2 : Item) : Prop :=
  pk i1 = pk i2 ∧ provider i1 = provider i2 ∧ service i1 = service i2 ∧
  displayName i1 = displayName i2 ∧ description i1 = description i2 ∧
  category i1 = category i2 ∧ cspmEnabled i1 = cspmEnabled i2 ∧
  assetsEnabled i1 = assetsEnabled i2 ∧
  dataDiscoveryEnabled i1 = dataDiscoveryEnabled i2 ∧
  features i1 = features i2 ∧ collectorName i1 = collectorName i2 ∧
  updatedBy i1 = updatedBy i2.

(** The key of an entry of [all_services]: provider and service name. *)
Definition entry_key (e : Config.t * string) : string * string :=
  (e.2, Config.service e.1).

Definition entry_pk (e : Config.t * string) : string :=
  e.2 +:+ "#" +:+ Config.service e.1.

(** The parts of the world that the program only reads. *)
Definition same_oracles (w w' : World) : Prop :=
  clock w' = clock w ∧ put_item_outcome w' = put_item_outcome w ∧
  scan_outcome w' = scan_outcome w ∧ table_outcome w' = table_outcome w.

(** What one pass through the loop body does to the counters and to the
    world, for the entry [e] met with counters [c] in world [w]. *)
Definition after_step (dry_run : bool) (c : Counters) (e : Config.t * string)
    (w : World) (c' : Counters) (w' : World) : Prop :=
  ∃ item,
    (build_service_item e.1 e.2 w).1 = Ok item ∧
    processed (stats c') = processed (stats c) + 1 ∧
    items_by_category c' =
      tally (Config.category e.1) (items_by_category c) ∧
    items_by_provider c' = tally e.2 (items_by_provider c) ∧
    same_oracles w w' ∧ ticks w' = S (ticks w) ∧
    scan_calls w' = scan_calls w ∧ stdout w' = stdout w ∧
    if dry_run then
      written (stats c') = written (stats c) + 1 ∧
      errors (stats c') = errors (stats c) ∧
      put_calls w' = put_calls w ∧
      ∃ names,
        log w' = log w ++ [(INFO, "  [DRY RUN] " +:+ pk item +:+ ": " +:+ names)]
    else
      put_calls w' = put_calls w ++ [item] ∧
      match put_item_outcome w (length (put_calls w)) with
      | Returns _ =>
          written (stats c') = written (stats c) + 1 ∧
          errors (stats c') = errors (stats c) ∧
          log w' = log w ++ [(INFO, "  Written: " +:+ pk item)]
      | Throws err =>
          written (stats c') = written (stats c) ∧
          errors (stats c') = errors (stats c) + 1 ∧
          log w' = log w ++
            [(ERROR, "  Error writing " +:+ pk item +:+ ": " +:+ err)]
      end.

Definition is_throw {A} (o : outcome A) : bool :=
  match o with Throws _ => true | Returns _ => false end.

(** Among the [n] calls numbered [start], [start + 1], ..., how many
    raise. *)
Fixpoint count_throws {A} (f : nat → outcome A) (start n : nat) : Z :=
  match n with
  | O => 0
  | S n' =>
      count_throws f start n' +
      (if is_throw (f (start + n')%nat) then 1 else 0)
  end.

(** [item] is what [build_service_item] returns for the entry [e] at some
    clock reading. *)
Definition built_from (item : Item) (e : Config.t * string) : Prop :=
  ∃ w, (build_service_item e.1 e.2 w).1 = Ok item.

(** The log record [r] mentions the key of [item]. *)
Definition names_key (r : level * string) (item : Item) : Prop :=
  ∃ pre post, r.2 = pre +:+ pk item +:+ post.

Definition tally_all {A} (key : A → string) (d : gmap string Z) (l : list A)
  : gmap string Z :=
  foldl (λ d x, tally (key x) d) d l.

(** The state of the loop after the entries [done], started with counters
    [c0] in world [w0]. *)
Record loop_inv (dry_run : bool) (c0 : Counters) (w0 : World)
    (done : list (Config.t * string)) (c : Counters) (w : World) : Prop := {
  inv_processed :
    processed (stats c) = processed (stats c0) + Z.of_nat (length done);
  inv_written :
    written (stats c) + errors (stats c) =
    written (stats c0) + errors (stats c0) + Z.of_nat (length done);
  inv_errors :
    errors (stats c) = errors (stats c0) +
      (if dry_run then 0
       else count_throws (put_item_outcome w0) (length (put_calls w0))
                         (length done));
  inv_by_category :
    items_by_category c =
    tally_all (λ e, Config.category e.1) (items_by_category c0) done;
  inv_by_provider :
    items_by_provider c = tally_all snd (items_by_provider c0) done;
  inv_oracles : same_oracles w0 w;
  inv_ticks : ticks w = (ticks w0 + length done)%nat;
  inv_scan_calls : scan_calls w = scan_calls w0;
  inv_stdout : stdout w = stdout w0;
  inv_trace :
    ∃ items records,
      Forall2 built_from items done ∧
      put_calls w = put_calls w0 ++ (if dry_run then [] else items) ∧
      log w = log w0 ++ records ∧
      Forall2 names_key records items
}.

(** The world after the lines [lines] have been printed. *)
Definition printed (lines : list string) (w : World) : World :=
  mkWorld (table_outcome w) (table_calls w) (clock w) (ticks w) (put_item_outcome w) (put_calls w)
          (scan_outcome w) (scan_calls w) (log w) (stdout w ++ lines).

Definition count_line (kv : string * Z) : string :=
  "  " +:+ kv.1 +:+ ": " +:+ pretty kv.2.

(** The lines that [print_summary] writes for the counters [c]. *)
Definition summary_lines (c : Counters) : list string :=
  [ newline +:+ str_repeat "=" 80;
    "Seeding Summary";
    str_repeat "=" 80;
    "Total services: " +:+ pretty (processed (stats c));
    "Written: " +:+ pretty (written (stats c));
    "Errors: " +:+ pretty (errors (stats c));
    newline +:+ "By provider:" ] ++
  (count_line <$> sorted_items (items_by_provider c)) ++
  [ newline +:+ "By category:" ] ++
  (count_line <$> sorted_items (items_by_category c)) ++
  [ newline +:+ "Feature coverage:";
    "  CSPM: " +:+ pretty (processed (stats c)) +:+ " services (all)";
    "  Assets: " +:+
      pretty (Z.of_nat (length (sorted_set ASSETS_ENABLED_SERVICES))) +:+
      " services (" +:+
      String.concat ", " (sorted_set ASSETS_ENABLED_SERVICES) +:+ ")";
    "  Data Discovery: " +:+
      pretty (Z.of_nat (length (sorted_set DATA_DISCOVERY_ENABLED_SERVICES))) +:+
      " services (" +:+
      String.concat ", " (sorted_set DATA_DISCOVERY_ENABLED_SERVICES) +:+ ")";
    str_repeat "=" 80 ].

(** The world in which the loop of [seed_services] starts: after the
    opening log record and, in a real run, after the table handle has been
    asked for. *)
Definition announced (dry_run : bool) (w : World) : World :=
  mkWorld (table_outcome w)
    (if dry_run then table_calls w
     else table_calls w ++ ["master-integrations"])
    (clock w) (ticks w) (put_item_outcome w) (put_calls w)
    (scan_outcome w) (scan_calls w)
    (log w ++ [(INFO, (if dry_run then "[DRY RUN] " else EmptyString) +:+
                      "Seeding services to table: master-integrations")])
    (stdout w).

(** Two worlds in which exactly one write fails: the first one (the record
    [aws#s3]), or the one numbered 83 (the record [m365#entraid]). *)
Definition first_put_fails : World :=
  with_put_item_outcome
    (λ n, if (n =? 0)%nat then Throws "ProvisionedThroughputExceededException"
          else Returns ())
    calm.

Definition entraid_put_fails : World :=
  with_put_item_outcome
    (λ n, if (n =? 83)%nat then Throws "ProvisionedThroughputExceededException"
          else Returns ())
    calm.

(** The items whose [put_item] call raised, read off the trace of the
    world. *)
Definition put_failed (w : World) : list Item :=
  omap id
    (imap (λ i item,
             if is_throw (put_item_outcome w i) then Some item else None)
          (put_calls w)).

(** The error count of a run grouped by provider, in the words of the
    specification: the failed writes of the records of provider [p]. *)
Definition errors_of_provider (p : string) (w : World) : Z :=
  Z.of_nat (length (filter (λ item, provider item = p) (put_failed w))).

(** The reading of C7 on which the returned value carries the counts per
    provider: some function reads the per-provider error count of a run off
    the value that the run returned. *)
Definition returns_errors_by_provider : Prop :=
  ∃ read : Stats → string → Z,
    ∀ w s w' p,
      put_calls w = [] →
      seed_services "dev" false w = (Ok s, w') →
      read s p = errors_of_provider p w'.

(** The world after one more [scan] call has been issued. *)
Definition scanned (key : option (gmap string string)) (w : World) : World :=
  mkWorld (table_outcome w) (table_calls w) (clock w) (ticks w) (put_item_outcome w) (put_calls w)
          (scan_outcome w) (scan_calls w ++ [key]) (log w) (stdout w).

(** A stored item with the attributes that [verify_table] reads. *)
Definition stored (p s d c : string) (a dd : bool) : gmap string string :=
  list_to_map
    [("pk", p +:+ "#" +:+ s); ("provider", p); ("service", s);
     ("displayName", d); ("category", c); ("cspmEnabled", "true");
     ("assetsEnabled", flag a); ("dataDiscoveryEnabled", flag dd)].

Definition first_page : ScanResponse :=
  mkScanResponse
    (Some [stored "m365" "onedrive" "OneDrive for Business" "storage" false true;
           stored "aws" "iam" "IAM (Identity and Access Management)" "security"
                  true false])
    (Some {[ "pk" := "aws#iam" ]}).

Definition last_page : ScanResponse :=
  mkScanResponse
    (Some [stored "aws" "ec2" "EC2 (Elastic Compute Cloud)" "compute" true true])
    None.

(** A table read in two pages, and the same table when the second read
    fails. *)
Definition two_pages : World :=
  with_scan_outcome
    (λ n, match n with
          | O => Returns first_page
          | _ => Returns last_page
          end)
    calm.

Definition second_read_fails : World :=
  with_scan_outcome
    (λ n, match n with
          | O => Returns first_page
          | _ => Throws "RequestTimeout"
          end)
    calm.

(** What [verify_table] does once it holds the table handle. *)
Definition verify_pass (fuel : nat) : M () :=
  print "Verifying master-integrations table: master-integrations";;
  print (str_repeat "=" 80);;
  try_except (verify_body fuel)
    (λ e, print ("Error verifying table: " +:+ e));;
  print (str_repeat "=" 80).

(** The next construction of the table handle succeeds. *)
Definition table_built (w : World) : Prop :=
  table_outcome w (length (table_calls w)) = Returns ().

(** What a run of [seed_services] needs in order to reach its loop: nothing
    in a dry run, the table handle in a real run. *)
Definition table_ready (dry_run : bool) (w : World) : Prop :=
  if dry_run then True else table_built w.

(** The world after the table handle has been asked for. *)
Definition connected (w : World) : World :=
  mkWorld (table_outcome w) (table_calls w ++ ["master-integrations"])
          (clock w) (ticks w) (put_item_outcome w) (put_calls w)
          (scan_outcome w) (scan_calls w) (log w) (stdout w).

Definition with_table_outcome (f : nat → outcome ()) (w : World) : World :=
  mkWorld f (table_calls w) (clock w) (ticks w) (put_item_outcome w)
          (put_calls w) (scan_outcome w) (scan_calls w) (log w) (stdout w).

(** A world in which the client cannot be set up: no region is
    configured. *)
Definition no_region : World :=
  with_table_outcome (λ _, Throws "You must specify a region.") calm.

(** The requests for the table handle are the same in both worlds. *)
Definition same_table_calls (w w' : World) : Prop :=
  table_calls w' = table_calls w.

(** [keeps R m]: whatever way [m] ends, the world it leaves is related by
    [R] to the world it started from. *)
Definition keeps {A} (R : World → World → Prop) (m : M A) : Prop :=
  ∀ w, R w (m w).2.

(** What a read-only pass leaves alone: the trace of writes, the log and
    the clock. *)
Definition no_writes (w w' : World) : Prop :=
  put_calls w' = put_calls w ∧ log w' = log w ∧ ticks w' = ticks w ∧
  table_calls w' = table_calls w ∧ same_oracles w w'.

(** The sum of the counts held in a counting dictionary. *)
Definition sum_counts (d : gmap string Z) : Z :=
  map_fold (λ _ v acc, v + acc) 0 d.

(** The item is counted under the key [k] for the attribute [attr]: it
    carries [k] there, or it lacks the attribute and [k] is [unknown]. *)
Definition filed_under (attr k : string) (item : gmap string string) : Prop :=
  item !! attr = Some k ∨ (item !! attr = None ∧ k = "unknown").

#[global] Instance filed_under_dec attr k item :
  Decision (filed_under attr k item).
Proof. unfold filed_under. apply _. Defined.

(** The count held under [k], zero when [k] is not a key. *)
Definition count_of (k : string) (d : gmap string Z) : Z :=
  default 0 (d !! k).

(** How many stored items carry the string ["true"] under the key [k]. *)
Definition count_flagged (k : string) (items : list (gmap string string))
  : Z :=
  Z.of_nat (length (filter (λ item, item !! k = Some "true") items)).

(** The order of two stored items in a list sorted on the key [key]. *)
Definition key_le {A} (key : A → string) (a b : A) : Prop :=
  String.le (key a) (key b).

(** [response.get('Items', [])] *)
Definition page_items (r : ScanResponse) : list (gmap string string) :=
  default [] (Items r).

(** The storage serves the pages [rest] after the page [r]: [r] carries a
    continuation key exactly when a page follows it, and the read numbered
    [n] returns that page. *)
Fixpoint served (f : nat → outcome ScanResponse) (n : nat) (r : ScanResponse)
    (rest : list ScanResponse) : Prop :=
  match rest with
  | [] => LastEvaluatedKey r = None
  | r' :: rest' =>
      is_Some (LastEvaluatedKey r) ∧ f n = Returns r' ∧
      served f (S n) r' rest'
  end.

(** The [LastEvaluatedKey] of every page that is followed by another. *)
Fixpoint continuation_keys (r : ScanResponse) (rest : list ScanResponse)
  : list (option (gmap string string)) :=
  match rest with
  | [] => []
  | r' :: rest' => LastEvaluatedKey r :: continuation_keys r' rest'
  end.

(** The world after the [scan] calls with the start keys [keys] have been
    issued. *)
Definition scanned_all (keys : list (option (gmap string string)))
    (w : World) : World :=
  mkWorld (table_outcome w) (table_calls w) (clock w) (ticks w) (put_item_outcome w) (put_calls w)
          (scan_outcome w) (scan_calls w ++ keys) (log w) (stdout w).

(** The items of [items] flagged under [k], in the order of their [pk]. *)
Definition flagged_by_pk (k : string) (items : list (gmap string string))
  : list (gmap string string) :=
  filter (λ item, item !! k = Some "true")
         (sorted_by (get_or "pk" EmptyString) items).

(** The lines of a verification report over the items [items]. *)
Definition report_lines (items : list (gmap string string)) : list string :=
  let t := foldl count_item (mkTally ∅ ∅ 0 0 0) items in
  [ "Total items: " +:+ pretty (Z.of_nat (length items));
    newline +:+ "By provider:" ] ++
  (count_line <$> sorted_items (by_provider t)) ++
  [ newline +:+ "By category:" ] ++
  (count_line <$> sorted_items (by_category t)) ++
  [ newline +:+ "Feature coverage:";
    "  CSPM enabled: " +:+ pretty (cspm_count t);
    "  Assets enabled: " +:+ pretty (assets_count t);
    "  Data Discovery enabled: " +:+ pretty (data_discovery_count t);
    newline +:+ "Services with Assets feature:" ] ++
  (feature_line <$> flagged_by_pk "assetsEnabled" items) ++
  [ newline +:+ "Services with Data Discovery feature:" ] ++
  (feature_line <$> flagged_by_pk "dataDiscoveryEnabled" items).

(** The shape of an item: the key is provider, [#], service; the collector
    carries the service name; both timestamps are the same; the string
    flags spell the booleans of the [features] map, and CSPM is on. *)
Definition well_formed (item : Item) : Prop :=
  pk item = provider item +:+ "#" +:+ service item ∧
  collectorName item = service item ∧
  updatedBy item = "system" ∧
  createdAt item = updatedAt item ∧
  cspmEnabled item = "true" ∧ enabled (cspm (features item)) = true ∧
  assetsEnabled item = flag (enabled (assets (features item))) ∧
  dataDiscoveryEnabled item = flag (enabled (dataDiscovery (features item))).

(** The character [#]. *)
Definition hash : Ascii.ascii := Ascii.ascii_of_nat 35.

(** The string has no [#] in it. *)
Fixpoint hash_free (s : string) : bool :=
  match s with
  | EmptyString => true
  | String a s' => negb (Ascii.eqb a hash) && hash_free s'
  end.

(** The counters with which the loop of [seed_services] starts. *)
Definition zeroed : Counters := mkCounters (mkStats 0 0 0) ∅ ∅.

(** The closing line that [main] prints after a real run without errors. *)
Definition hint_line : string :=
  newline +:+ "Run with --verify to check seeded data".

(** [--environment dev], a real run. *)
Definition seed_dev : Args.t := Args.Make "dev" false false.

#[global] Instance level_eq_dec : EqDecision level.
Proof. solve_decision. Defined.

(** The records of level [ERROR] among [records]. *)
Definition error_records (records : list (level * string)) : Z :=
  Z.of_nat (length (filter (λ r, r.1 = ERROR) records)).

(** A response without the key ['LastEvaluatedKey']: the only page of a
    table, here with no item in it. *)
Definition empty_table : World :=
  with_scan_outcome (λ _, Returns (mkScanResponse None None)) calm.

(** * Reasoning rules for [M] *)

Lemma ensures_ret {A} (a : A) w (Q : A → World → Prop) :
  Q a w → ensures (mret a) w Q.
Proof. intros HQ. exists a, w. done. Qed.

Lemma ensures_bind {A B} (m : M A) (f : A → M B) w (Q : B → World → Prop) :
  ensures m w (λ a w', ensures (f a) w' Q) → ensures (m ≫= f) w Q.
Proof.
  intros (a & w1 & Hm & b & w2 & Hf & HQ).
  exists b, w2. split; [|done].
  unfold mbind, M_bind. by rewrite Hm.
Qed.

Lemma ensures_mono {A} (m : M A) w (P Q : A → World → Prop) :
  ensures m w P → (∀ a w', P a w' → Q a w') → ensures m w Q.
Proof. intros (a & w' & Hm & HP) HPQ. exists a, w'. auto. Qed.

(** The invariant rule of [for_each]: [I done acc w] relates the entries
    already handled to the accumulator and the world. *)
Lemma ensures_for_each {A S} (I : list A → S → World → Prop)
    (body : S → A → M S) (l : list A) acc w :
  I [] acc w →
  (∀ done x acc w,
      I done acc w → ensures (body acc x) w (I (done ++ [x]))) →
  ensures (for_each l body acc) w (I l).
Proof.
  intros H0 Hstep.
  cut (∀ rest done acc w,
          I done acc w →
          ensures (for_each rest body acc) w (I (done ++ rest))).
  { intros Hgen. apply (Hgen l [] acc w H0). }
  induction rest as [|x rest IH]; intros done acc' w' HI; simpl.
  - apply ensures_ret. by rewrite app_nil_r.
  - apply ensures_bind.
    eapply ensures_mono; [apply Hstep, HI|].
    intros acc'' w'' HI'. simpl.
    replace (done ++ x :: rest) with ((done ++ [x]) ++ rest)
      by (by rewrite <- app_assoc).
    by apply IH.
Qed.

(** * Properties of [get_table_name] and [build_service_item] *)

(** C8. The table name is the literal [master-integrations] whatever the
    environment argument is, so any two environments ([dev], [staging],
    [prod] among them) name the same table. *)
Theorem get_table_name_constant (environment environment' : string) :
  get_table_name environment = "master-integrations" ∧
  get_table_name environment = get_table_name environment'.
Proof. split; reflexivity. Qed.

Lemma flag_true (b : bool) : flag b = "true" ↔ b = true.
Proof. destruct b; simpl; split; congruence. Qed.

Lemma member_true (x : string) (s : gset string) : member x s = true ↔ x ∈ s.
Proof. unfold member. apply bool_decide_eq_true. Qed.

(** The flags of a built item, for any entry at all. *)
Lemma build_service_item_flags_any (service_config : Config.t)
    (provider : string) (w : World) :
  ensures (build_service_item service_config provider) w (λ item _,
    cspmEnabled item = "true" ∧
    (assetsEnabled item = "true" ↔
       Config.service service_config ∈ ASSETS_ENABLED_SERVICES) ∧
    (dataDiscoveryEnabled item = "true" ↔
       Config.service service_config ∈ DATA_DISCOVERY_ENABLED_SERVICES)).
Proof.
  eexists _, _. split; [reflexivity|]. cbn [cspmEnabled assetsEnabled
    dataDiscoveryEnabled].
  split; [reflexivity|].
  split; rewrite flag_true; apply member_true.
Qed.

(** C1. For every entry of [AWS_SERVICES] or [M365_SERVICES], the item built
    from it has [cspmEnabled] equal to ["true"], has [assetsEnabled] equal to
    ["true"] exactly when the service name is in [ASSETS_ENABLED_SERVICES],
    and has [dataDiscoveryEnabled] equal to ["true"] exactly when the service
    name is in [DATA_DISCOVERY_ENABLED_SERVICES]. *)
Theorem build_service_item_flags (service_config : Config.t)
    (provider : string) (w : World) :
  service_config ∈ AWS_SERVICES ∨ service_config ∈ M365_SERVICES →
  ensures (build_service_item service_config provider) w (λ item _,
    cspmEnabled item = "true" ∧
    (assetsEnabled item = "true" ↔
       Config.service service_config ∈ ASSETS_ENABLED_SERVICES) ∧
    (dataDiscoveryEnabled item = "true" ↔
       Config.service service_config ∈ DATA_DISCOVERY_ENABLED_SERVICES)).
Proof. intros _. apply build_service_item_flags_any. Qed.

Lemma build_service_item_flags_s3 :
  let s3 := entry "s3" "S3 (Simple Storage Service)" "storage"
                  "Object storage for data storage and retrieval" in
  (s3 ∈ AWS_SERVICES ∨ s3 ∈ M365_SERVICES) ∧
  ensures (build_service_item s3 "aws") calm (λ item _,
    cspmEnabled item = "true" ∧
    (assetsEnabled item = "true" ↔
       Config.service s3 ∈ ASSETS_ENABLED_SERVICES) ∧
    (dataDiscoveryEnabled item = "true" ↔
       Config.service s3 ∈ DATA_DISCOVERY_ENABLED_SERVICES)).
Proof.
  intros s3.
  assert (Hin : s3 ∈ AWS_SERVICES ∨ s3 ∈ M365_SERVICES)
    by (left; apply list_elem_of_here).
  split; [exact Hin|].
  exact (build_service_item_flags s3 "aws" calm Hin).
Defined.

(** The two worked examples of the specification: [s3] and [iam]. *)
Example build_service_item_s3_iam :
  (let (r, _) := build_service_item (entry "s3" "S3" "storage" "-") "aws" calm in
   (λ i, (cspmEnabled i, assetsEnabled i, dataDiscoveryEnabled i)) <$>
     (match r with Ok i => Some i | _ => None end)) =
    Some ("true", "false", "true") ∧
  (let (r, _) := build_service_item (entry "iam" "IAM" "security" "-") "aws" calm in
   (λ i, (cspmEnabled i, assetsEnabled i, dataDiscoveryEnabled i)) <$>
     (match r with Ok i => Some i | _ => None end)) =
    Some ("true", "true", "false").
Proof. split; vm_compute; reflexivity. Qed.

(** C2. Built in any two worlds from the same entry and provider, two items
    agree on every field except [createdAt] and [updatedAt]; in each built
    item these two fields are equal to each other and to the reading of the
    clock at the call.  Building issues no storage call and writes
    nothing to the log or to standard output. *)
Theorem build_service_item_deterministic (service_config : Config.t)
    (provider : string) (w1 w2 : World) :
  ensures (build_service_item service_config provider) w1 (λ item1 w1',
    ensures (build_service_item service_config provider) w2 (λ item2 _,
      agree_except_timestamps item1 item2) ∧
    createdAt item1 = updatedAt item1 ∧
    createdAt item1 = clock w1 (ticks w1) ∧
    put_calls w1' = put_calls w1 ∧ scan_calls w1' = scan_calls w1 ∧
    log w1' = log w1 ∧ stdout w1' = stdout w1).
Proof.
  eexists _, _. split; [reflexivity|]. cbn.
  split; [|by repeat split].
  eexists _, _. split; [reflexivity|]. by repeat split.
Qed.

Lemma entry_keys_NoDup : NoDup (entry_key <$> all_services).
Proof. apply (bool_decide_unpack _). by vm_compute. Qed.

Lemma entry_pks_NoDup : NoDup (entry_pk <$> all_services).
Proof. apply (bool_decide_unpack _). by vm_compute. Qed.

Lemma NoDup_fmap_lookup_ne {A B} (f : A → B) (l : list A) i j x y :
  NoDup (f <$> l) → l !! i = Some x → l !! j = Some y → i ≠ j → f x ≠ f y.
Proof.
  intros Hnd Hi Hj Hij Heq. apply Hij.
  eapply NoDup_lookup; [exact Hnd| |].
  - rewrite list_lookup_fmap, Hi. reflexivity.
  - rewrite list_lookup_fmap, Hj. simpl. by rewrite Heq.
Qed.

(** C3. The items built from two different positions of the concatenated
    catalogue (AWS entries under ["aws"], then M365 entries under ["m365"])
    never share their (provider, service) pair, nor their key [pk]. *)
Theorem record_keys_unique (i j : nat) (e1 e2 : Config.t * string)
    (w1 w2 : World) :
  all_services !! i = Some e1 → all_services !! j = Some e2 → i ≠ j →
  ensures (build_service_item e1.1 e1.2) w1 (λ item1 _,
    ensures (build_service_item e2.1 e2.2) w2 (λ item2 _,
      (provider item1, service item1) ≠ (provider item2, service item2) ∧
      pk item1 ≠ pk item2)).
Proof.
  intros Hi Hj Hij.
  eexists _, _. split; [reflexivity|].
  eexists _, _. split; [reflexivity|]. cbn [provider service pk].
  split.
  - apply (NoDup_fmap_lookup_ne entry_key all_services i j e1 e2
             entry_keys_NoDup Hi Hj Hij).
  - apply (NoDup_fmap_lookup_ne entry_pk all_services i j e1 e2
             entry_pks_NoDup Hi Hj Hij).
Qed.

Lemma record_keys_unique_s3_efs :
  ensures (build_service_item (entry "s3" "S3 (Simple Storage Service)"
             "storage" "Object storage for data storage and retrieval") "aws")
    calm (λ item1 _,
    ensures (build_service_item (entry "efs" "EFS (Elastic File System)"
               "storage" "Fully managed elastic NFS file system") "aws")
      calm (λ item2 _,
      (provider item1, service item1) ≠ (provider item2, service item2) ∧
      pk item1 ≠ pk item2)).
Proof.
  refine (record_keys_unique 0 1 (_, _) (_, _) calm calm _ _ _).
  - reflexivity.
  - reflexivity.
  - lia.
Defined.

(** * The loop of [seed_services] *)

Lemma same_oracles_refl w : same_oracles w w.
Proof. by repeat split. Qed.

Lemma same_oracles_trans w1 w2 w3 :
  same_oracles w1 w2 → same_oracles w2 w3 → same_oracles w1 w3.
Proof.
  intros (? & ? & ? & ?) (? & ? & ? & ?). repeat split; congruence.
Qed.

Ltac run_step :=
  unfold seed_one, build_service_item, utcnow_isoformat, try_except, put_item,
    logger_info, logger_error, emit, mbind, M_bind, mret, M_ret; cbn.

Lemma seed_one_spec (dry_run : bool) (c : Counters) (e : Config.t * string)
    (w : World) :
  ensures (seed_one dry_run c e) w (after_step dry_run c e w).
Proof.
  destruct e as [service_config provider0]. unfold ensures, after_step.
  destruct dry_run.
  - eexists _, _. split; [run_step; reflexivity|].
    eexists. split; [reflexivity|].
    unfold same_oracles. cbn. repeat split. eexists. reflexivity.
  - destruct (put_item_outcome w (length (put_calls w))) as [[]|err] eqn:Hout.
    + eexists _, _. split; [run_step; rewrite Hout; reflexivity|].
      eexists. split; [reflexivity|].
      unfold same_oracles. cbn. by repeat split.
    + eexists _, _. split; [run_step; rewrite Hout; reflexivity|].
      eexists. split; [reflexivity|].
      unfold same_oracles. cbn. by repeat split.
Qed.

Lemma append_nil_r (s : string) : s +:+ EmptyString = s.
Proof.
  induction s as [|a s IH]; [done|].
  change (String a (s +:+ EmptyString) = String a s). by rewrite IH.
Qed.

Lemma tally_all_snoc {A} (key : A → string) d l x :
  tally_all key d (l ++ [x]) = tally (key x) (tally_all key d l).
Proof. unfold tally_all. by rewrite foldl_app. Qed.

Lemma loop_inv_start dry_run c0 w0 : loop_inv dry_run c0 w0 [] c0 w0.
Proof.
  split; simpl; try lia; try done.
  - destruct dry_run; lia.
  - exists [], []. destruct dry_run; rewrite !app_nil_r; by repeat split.
Qed.

Lemma loop_inv_step dry_run c0 w0 done e c w c' w' :
  loop_inv dry_run c0 w0 done c w →
  after_step dry_run c e w c' w' →
  loop_inv dry_run c0 w0 (done ++ [e]) c' w'.
Proof.
  intros [Hp Hw He Hc Hpr Ho Ht Hs Hout (items & records & Hb & Hput & Hlog & Hn)]
         (item & Hitem & Hp' & Hc' & Hpr' & Ho' & Ht' & Hs' & Hout' & Hmode).
  assert (Hbuilt : Forall2 built_from (items ++ [item]) (done ++ [e])).
  { apply Forall2_app; [done|]. constructor; [|constructor]. by exists w. }
  assert (Hcat : items_by_category c' =
     tally_all (λ e, Config.category e.1) (items_by_category c0) (done ++ [e])).
  { rewrite Hc', Hc. by rewrite tally_all_snoc. }
  assert (Hprov : items_by_provider c' =
     tally_all snd (items_by_provider c0) (done ++ [e])).
  { rewrite Hpr', Hpr. by rewrite tally_all_snoc. }
  assert (Hor : same_oracles w0 w') by (by eapply same_oracles_trans).
  assert (Hlen : length (done ++ [e]) = S (length done)).
  { rewrite length_app. simpl. lia. }
  destruct Ho as (Hclock & Hpio & Hso).
  destruct dry_run.
  - destruct Hmode as (Hw' & He' & Hput' & names & Hlog').
    split; [lia|lia|lia|done|done|done|lia|congruence|congruence|].
    exists (items ++ [item]),
      (records ++ [(INFO, "  [DRY RUN] " +:+ pk item +:+ ": " +:+ names)]).
    split; [done|]. split; [congruence|]. split.
    + rewrite Hlog', Hlog. by rewrite app_assoc.
    + apply Forall2_app; [done|]. constructor; [|constructor].
      exists "  [DRY RUN] ", (": " +:+ names). reflexivity.
  - destruct Hmode as (Hput' & Hmode).
    assert (Hidx : length (put_calls w) =
                   (length (put_calls w0) + length done)%nat).
    { rewrite Hput, length_app. pose proof (Forall2_length _ _ _ Hb). lia. }
    rewrite Hpio, Hidx in Hmode.
    assert (Hcount :
      count_throws (put_item_outcome w0) (length (put_calls w0))
                   (length (done ++ [e])) =
      count_throws (put_item_outcome w0) (length (put_calls w0)) (length done) +
      (if is_throw (put_item_outcome w0
                      (length (put_calls w0) + length done)%nat)
       then 1 else 0)).
    { rewrite Hlen. reflexivity. }
    destruct (put_item_outcome w0 (length (put_calls w0) + length done))
      as [[]|err]; cbn [is_throw] in Hcount;
      destruct Hmode as (Hw' & He' & Hlog').
    + split; [lia|lia|lia|done|done|done|lia|congruence|congruence|].
      exists (items ++ [item]), (records ++ [(INFO, "  Written: " +:+ pk item)]).
      split; [done|]. split; [by rewrite Hput', Hput, app_assoc|]. split.
      * rewrite Hlog', Hlog. by rewrite app_assoc.
      * apply Forall2_app; [done|]. constructor; [|constructor].
        exists "  Written: ", EmptyString. cbn [snd].
        by rewrite append_nil_r.
    + split; [lia|lia|lia|done|done|done|lia|congruence|congruence|].
      exists (items ++ [item]),
        (records ++ [(ERROR, "  Error writing " +:+ pk item +:+ ": " +:+ err)]).
      split; [done|]. split; [by rewrite Hput', Hput, app_assoc|]. split.
      * rewrite Hlog', Hlog. by rewrite app_assoc.
      * apply Forall2_app; [done|]. constructor; [|constructor].
        exists "  Error writing ", (": " +:+ err). reflexivity.
Qed.

(** The loop over any list of entries returns normally and establishes
    [loop_inv]. *)
Lemma seed_loop_spec dry_run (l : list (Config.t * string)) c0 w0 :
  ensures (for_each l (seed_one dry_run) c0) w0 (loop_inv dry_run c0 w0 l).
Proof.
  apply ensures_for_each; [apply loop_inv_start|].
  intros done e c w Hinv.
  eapply ensures_mono; [apply seed_one_spec|].
  intros c' w' Hstep. by eapply loop_inv_step.
Qed.

(** * The summary printed by [seed_services] *)

Lemma printed_printed l1 l2 w :
  printed l2 (printed l1 w) = printed (l1 ++ l2) w.
Proof. unfold printed. cbn. by rewrite app_assoc. Qed.

Lemma printed_nil w : printed [] w = w.
Proof. destruct w. unfold printed. cbn. by rewrite app_nil_r. Qed.

Lemma print_eq line w : print line w = (Ok (), printed [line] w).
Proof. reflexivity. Qed.

Lemma bind_print {A} line (k : () → M A) w :
  (print line ≫= k) w = k () (printed [line] w).
Proof. reflexivity. Qed.

(** A loop whose body prints one line per element. *)
Lemma for_each_print {A} (fmt : A → string) (body : () → A → M ())
    (l : list A) w :
  (∀ u x, body u x = print (fmt x)) →
  for_each l body () w = (Ok (), printed (fmt <$> l) w).
Proof.
  intros Hbody. revert w.
  induction l as [|x l IH]; intros w; simpl.
  - by rewrite printed_nil.
  - rewrite Hbody, bind_print, IH, printed_printed. reflexivity.
Qed.

Lemma bind_for_each_print {A B} (fmt : A → string) (body : () → A → M ())
    (l : list A) (k : () → M B) w :
  (∀ u x, body u x = print (fmt x)) →
  (for_each l body () ≫= k) w = k () (printed (fmt <$> l) w).
Proof.
  intros Hbody. unfold mbind, M_bind at 1.
  by rewrite (for_each_print fmt body l w Hbody).
Qed.

Lemma print_summary_eq (c : Counters) (w : World) :
  print_summary c w = (Ok (), printed (summary_lines c) w).
Proof.
  unfold print_summary.
  rewrite !bind_print.
  rewrite (bind_for_each_print count_line) by (by intros [] [??]).
  rewrite !bind_print.
  rewrite (bind_for_each_print count_line) by (by intros [] [??]).
  rewrite !bind_print, print_eq.
  rewrite !printed_printed. reflexivity.
Qed.

(** The steps of [seed_services] before its loop: the opening log record
    and, in a real run, the construction of the table handle. *)
Lemma dynamodb_table_returns table_name w :
  table_built w →
  dynamodb_table table_name w =
    (Ok (), mkWorld (table_outcome w) (table_calls w ++ [table_name])
              (clock w) (ticks w) (put_item_outcome w) (put_calls w)
              (scan_outcome w) (scan_calls w) (log w) (stdout w)).
Proof. intros H. unfold dynamodb_table. by rewrite H. Qed.

Lemma dynamodb_table_throws table_name w err :
  table_outcome w (length (table_calls w)) = Throws err →
  dynamodb_table table_name w =
    (Raise err, mkWorld (table_outcome w) (table_calls w ++ [table_name])
                  (clock w) (ticks w) (put_item_outcome w) (put_calls w)
                  (scan_outcome w) (scan_calls w) (log w) (stdout w)).
Proof. intros H. unfold dynamodb_table. by rewrite H. Qed.

(** A real run in which the table handle cannot be built: the exception
    leaves [seed_services] after the opening log record. *)
Lemma seed_services_refused (environment : string) (w : World) err :
  table_outcome w (length (table_calls w)) = Throws err →
  seed_services environment false w = (Raise err, announced false w).
Proof.
  intros Herr. unfold seed_services.
  unfold mbind, M_bind at 1. cbn [logger_info emit].
  unfold mbind, M_bind at 1. cbn [negb].
  rewrite dynamodb_table_throws with (err := err) by exact Herr. reflexivity.
Qed.

(** Once past these steps, [seed_services] returns normally: it runs the
    loop over [all_services] from zeroed counters, prints the summary of the
    final counters, and returns their [stats]. *)
Lemma seed_services_spec (environment : string) (dry_run : bool) (w : World) :
  table_ready dry_run w →
  ensures (seed_services environment dry_run) w (λ s w',
    ∃ c w1,
      loop_inv dry_run (mkCounters (mkStats 0 0 0) ∅ ∅) (announced dry_run w)
               all_services c w1 ∧
      s = stats c ∧ w' = printed (summary_lines c) w1).
Proof.
  intros Hready. unfold seed_services.
  apply ensures_bind. eexists (), _. split; [reflexivity|].
  apply ensures_bind. exists (), (announced dry_run w). split.
  { destruct dry_run; cbn [negb]; [reflexivity|].
    rewrite dynamodb_table_returns by exact Hready. reflexivity. }
  apply ensures_bind.
  eapply ensures_mono; [apply seed_loop_spec|].
  intros c w1 Hinv. cbn beta.
  apply ensures_bind. exists (), (printed (summary_lines c) w1).
  split; [apply print_summary_eq|].
  apply ensures_ret. by exists c, w1.
Qed.

(** * Properties of [seed_services] *)

Lemma all_services_length : length all_services = 87%nat.
Proof. reflexivity. Qed.

Lemma by_provider_lines :
  count_line <$> sorted_items (tally_all snd ∅ all_services) =
  ["  aws: 83"; "  m365: 4"].
Proof. by vm_compute. Qed.

Lemma by_category_lines :
  count_line <$>
    sorted_items (tally_all (λ e, Config.category e.1) ∅ all_services) =
  ["  ai_ml: 3"; "  analytics: 7"; "  collaboration: 1"; "  compute: 10";
   "  database: 9"; "  identity: 1"; "  integration: 9"; "  management: 13";
   "  networking: 9"; "  security: 15"; "  storage: 10"].
Proof. by vm_compute. Qed.

Lemma feature_coverage_lines :
  "  Assets: " +:+
    pretty (Z.of_nat (length (sorted_set ASSETS_ENABLED_SERVICES))) +:+
    " services (" +:+
    String.concat ", " (sorted_set ASSETS_ENABLED_SERVICES) +:+ ")" =
  "  Assets: 8 services (bedrock, ec2, ecs, eks, entraid, iam, intune, lambda)"
  ∧
  "  Data Discovery: " +:+
    pretty (Z.of_nat (length (sorted_set DATA_DISCOVERY_ENABLED_SERVICES))) +:+
    " services (" +:+
    String.concat ", " (sorted_set DATA_DISCOVERY_ENABLED_SERVICES) +:+ ")" =
  "  Data Discovery: 10 services (dynamodb, ec2, efs, fsx, neptune, onedrive, rds, redshift, s3, sharepoint)".
Proof. split; by vm_compute. Qed.

(** C9. Whatever the mode and whatever each write does, the counts returned
    by [seed_services] satisfy [processed = written + errors]; in a dry run
    [errors] is zero.  Counts are returned by every run that reaches the
    loop: every dry run, and every real run whose table handle is built. *)
Theorem seed_services_accounting (environment : string) (dry_run : bool)
    (w : World) :
  table_ready dry_run w →
  ensures (seed_services environment dry_run) w (λ s _,
    processed s = written s + errors s ∧
    if dry_run then errors s = 0 else True).
Proof.
  intros Hready.
  eapply ensures_mono; [by apply seed_services_spec|].
  intros s w' (c & w1 & [Hp Hw He _ _ _ _ _ _ _] & -> & _).
  cbn [stats processed written errors] in Hp, Hw, He. split; [lia|].
  destruct dry_run; [lia|done].
Qed.

(** C9 at a real run in which one write fails. *)
Lemma seed_services_accounting_one_failure :
  ensures (seed_services "dev" false) first_put_fails
    (λ s _, processed s = written s + errors s ∧ True).
Proof.
  refine (seed_services_accounting "dev" false first_put_fails _).
  vm_compute. reflexivity.
Defined.

(** C10, as stated, fails: a real run in which the table handle cannot be
    built ends with that exception after the opening log record; it handles
    no entry (no clock reading, no [put_item] call, nothing printed) and
    returns no count. *)
Lemma seed_services_no_handle_no_entry :
  let (r, w') := seed_services "dev" false no_region in
  r = Raise "You must specify a region." ∧
  (∀ s, r ≠ Ok s) ∧
  ticks w' = ticks no_region ∧ put_calls w' = [] ∧ stdout w' = [] ∧
  log w' = [(INFO, "Seeding services to table: master-integrations")] ∧
  table_calls w' = ["master-integrations"].
Proof. by vm_compute. Qed.

(** C10, amended. Every run of [seed_services] that reaches its loop (every
    dry run, and every real run whose table handle is built) handles the
    entries of [AWS_SERVICES] under ["aws"] and then those of
    [M365_SERVICES] under ["m365"], in list order: one item is built per
    entry and one log record naming its key is emitted, in that order; a
    real run passes these items to [put_item] in the same order.  The
    returned [processed] is the sum of the two list lengths,
    83 + 4 = 87. *)
Theorem seed_services_processes_all (environment : string) (dry_run : bool)
    (w : World) :
  table_ready dry_run w →
  ensures (seed_services environment dry_run) w (λ s w',
    processed s = Z.of_nat (length AWS_SERVICES + length M365_SERVICES) ∧
    length AWS_SERVICES = 83%nat ∧ length M365_SERVICES = 4%nat ∧
    processed s = 87 ∧
    ∃ items records,
      Forall2 built_from items
        (((λ service_config, (service_config, "aws")) <$> AWS_SERVICES) ++
         ((λ service_config, (service_config, "m365")) <$> M365_SERVICES)) ∧
      log w' = log (announced dry_run w) ++ records ∧
      Forall2 names_key records items ∧
      put_calls w' = put_calls w ++ (if dry_run then [] else items)).
Proof.
  intros Hready.
  eapply ensures_mono; [by apply seed_services_spec|].
  intros s w' (c & w1 & [Hp _ _ _ _ _ _ _ _ Htrace] & -> & ->).
  rewrite all_services_length in Hp.
  cbn [stats processed written errors] in Hp.
  destruct Htrace as (items & records & Hb & Hput & Hlog & Hn).
  split; [exact Hp|]. split; [reflexivity|]. split; [reflexivity|].
  split; [exact Hp|].
  exists items, records. split; [exact Hb|]. split; [exact Hlog|].
  split; [exact Hn|]. exact Hput.
Qed.

(** C10 at a real run in the calm world. *)
Lemma seed_services_processes_all_calm :
  ensures (seed_services "dev" false) calm (λ s w',
    processed s = Z.of_nat (length AWS_SERVICES + length M365_SERVICES) ∧
    length AWS_SERVICES = 83%nat ∧ length M365_SERVICES = 4%nat ∧
    processed s = 87 ∧
    ∃ items records,
      Forall2 built_from items
        (((λ service_config, (service_config, "aws")) <$> AWS_SERVICES) ++
         ((λ service_config, (service_config, "m365")) <$> M365_SERVICES)) ∧
      log w' = log (announced false calm) ++ records ∧
      Forall2 names_key records items ∧
      put_calls w' = put_calls calm ++ items).
Proof.
  refine (seed_services_processes_all "dev" false calm _).
  vm_compute. reflexivity.
Defined.

(** C4, as stated, fails: with one failing write, the real run returns
    [written = 86] where the dry run returns [written = 87]. *)
Lemma dry_run_written_differs :
  ∃ sd sr,
    (seed_services "dev" true first_put_fails).1 = Ok sd ∧
    (seed_services "dev" false first_put_fails).1 = Ok sr ∧
    processed sd = 87 ∧ processed sr = 87 ∧
    written sd = 87 ∧ written sr = 86 ∧ written sd ≠ written sr.
Proof.
  exists (mkStats 87 87 0), (mkStats 87 86 1).
  split; [by vm_compute|]. split; [by vm_compute|]. by repeat split.
Qed.

(** C4, amended. A dry run issues no [put_item] call.  Its [processed] equals
    that of any real run, and its [written] equals the real run's [written]
    plus the real run's [errors]; the two [written] counts are equal exactly
    when no write of the real run fails.  The real run is one that returns
    counts, that is one whose table handle is built. *)
Theorem dry_run_counts (environment : string) (w wr : World) :
  table_built wr →
  ensures (seed_services environment true) w (λ sd wd,
    put_calls wd = put_calls w ∧
    ensures (seed_services environment false) wr (λ sr _,
      processed sd = processed sr ∧
      written sd = written sr + errors sr ∧
      (written sd = written sr ↔ errors sr = 0))).
Proof.
  intros Hbuilt.
  eapply ensures_mono; [by apply seed_services_spec|].
  intros sd wd (c & w1 & [Hp Hw He _ _ _ _ _ _ Htrace] & -> & ->).
  destruct Htrace as (items & records & _ & Hput & _).
  cbn [stats processed written errors] in Hp, Hw, He.
  split; [by rewrite app_nil_r in Hput|].
  eapply ensures_mono; [by apply seed_services_spec|].
  intros sr wr' (cr & wr1 & [Hpr Hwr _ _ _ _ _ _ _ _] & -> & _).
  cbn [stats processed written errors] in Hpr, Hwr.
  repeat split; lia.
Qed.

(** C4, amended, at a dry run set against a real run with one failing
    write. *)
Lemma dry_run_counts_one_failure :
  ensures (seed_services "dev" true) calm (λ sd wd,
    put_calls wd = put_calls calm ∧
    ensures (seed_services "dev" false) first_put_fails (λ sr _,
      processed sd = processed sr ∧
      written sd = written sr + errors sr ∧
      (written sd = written sr ↔ errors sr = 0))).
Proof.
  refine (dry_run_counts "dev" calm first_put_fails _).
  vm_compute. reflexivity.
Defined.

(** C5. In a real run, whatever each write does: every entry of
    [all_services] has its item built and passed to [put_item], in list
    order, so a failed write stops nothing after it; [errors] is the number
    of the 87 writes that raised and [written] the number that did not.  At
    each pass through the loop body the write is attempted, and if it raises
    the pass still returns normally with [errors] one higher and [written]
    unchanged.  A write can fail only in a run whose table handle has been
    built. *)
Theorem failed_write_is_counted (environment : string) (w : World)
    (c : Counters) (e : Config.t * string) (w0 : World) :
  table_built w →
  ensures (seed_services environment false) w (λ s w',
    ∃ items,
      Forall2 built_from items all_services ∧
      put_calls w' = put_calls w ++ items ∧
      errors s =
        count_throws (put_item_outcome w) (length (put_calls w)) 87 ∧
      written s = 87 - errors s) ∧
  ensures (seed_one false c e) w0 (λ c' w0',
    ∃ item,
      built_from item e ∧ put_calls w0' = put_calls w0 ++ [item] ∧
      processed (stats c') = processed (stats c) + 1 ∧
      match put_item_outcome w0 (length (put_calls w0)) with
      | Throws _ =>
          errors (stats c') = errors (stats c) + 1 ∧
          written (stats c') = written (stats c)
      | Returns _ =>
          errors (stats c') = errors (stats c) ∧
          written (stats c') = written (stats c) + 1
      end).
Proof.
  intros Hbuilt. split.
  - eapply ensures_mono; [by apply seed_services_spec|].
    intros s w' (c1 & w1 & [Hp Hw He _ _ _ _ _ _ Htrace] & -> & ->).
    destruct Htrace as (items & records & Hb & Hput & _).
    rewrite all_services_length in *.
    cbn [stats processed written errors] in Hp, Hw, He.
    exists items. split; [exact Hb|]. split; [exact Hput|].
    split; [|lia]. rewrite He. reflexivity.
  - eapply ensures_mono; [apply seed_one_spec|].
    intros c' w0' (item & Hitem & Hp & _ & _ & _ & _ & _ & _ & Hput & Hmode).
    exists item. split; [by exists w0|]. split; [exact Hput|].
    split; [exact Hp|].
    destruct (put_item_outcome w0 (length (put_calls w0))) as [[]|err];
      destruct Hmode as (? & ? & _); by split.
Qed.

(** C5 at the run whose first write fails, and at its first pass. *)
Lemma failed_write_is_counted_first_put :
  ensures (seed_services "dev" false) first_put_fails (λ s w',
    ∃ items,
      Forall2 built_from items all_services ∧
      put_calls w' = put_calls first_put_fails ++ items ∧
      errors s =
        count_throws (put_item_outcome first_put_fails)
                     (length (put_calls first_put_fails)) 87 ∧
      written s = 87 - errors s) ∧
  ensures (seed_one false zeroed
             (entry "s3" "S3 (Simple Storage Service)" "storage"
                    "Object storage for data storage and retrieval", "aws"))
    first_put_fails (λ c' w0',
    ∃ item,
      built_from item
        (entry "s3" "S3 (Simple Storage Service)" "storage"
               "Object storage for data storage and retrieval", "aws") ∧
      put_calls w0' = put_calls first_put_fails ++ [item] ∧
      processed (stats c') = processed (stats zeroed) + 1 ∧
      errors (stats c') = errors (stats zeroed) + 1 ∧
      written (stats c') = written (stats zeroed)).
Proof.
  refine (failed_write_is_counted "dev" first_put_fails zeroed _
            first_put_fails _).
  vm_compute. reflexivity.
Defined.

(** A run with one failing write, evaluated. *)
Example one_failed_write :
  let (r, w') := seed_services "dev" false first_put_fails in
  r = Ok (mkStats 87 86 1) ∧ length (put_calls w') = 87%nat ∧
  pk <$> put_calls w' = entry_pk <$> all_services ∧
  log w' !! 1%nat =
    Some (ERROR,
      "  Error writing aws#s3: ProvisionedThroughputExceededException") ∧
  log w' !! 2%nat = Some (INFO, "  Written: aws#efs").
Proof. by vm_compute. Qed.

(** C7, as stated, fails: a run whose failed write is an AWS record and a
    run whose failed write is an M365 record return the same value and print
    the same lines, so neither the returned counts nor the printed ones are
    grouped by provider for [written] and [errors]. *)
Lemma seed_services_return_not_grouped :
  (let (r1, w1) := seed_services "dev" false first_put_fails in
   let (r2, w2) := seed_services "dev" false entraid_put_fails in
   r1 = Ok (mkStats 87 86 1) ∧ r2 = Ok (mkStats 87 86 1) ∧
   stdout w1 = stdout w2 ∧
   errors_of_provider "aws" w1 = 1 ∧ errors_of_provider "aws" w2 = 0 ∧
   errors_of_provider "m365" w1 = 0 ∧ errors_of_provider "m365" w2 = 1) ∧
  ¬ returns_errors_by_provider.
Proof.
  assert (Hruns :
    let (r1, w1) := seed_services "dev" false first_put_fails in
    let (r2, w2) := seed_services "dev" false entraid_put_fails in
    r1 = Ok (mkStats 87 86 1) ∧ r2 = Ok (mkStats 87 86 1) ∧
    stdout w1 = stdout w2 ∧
    errors_of_provider "aws" w1 = 1 ∧ errors_of_provider "aws" w2 = 0 ∧
    errors_of_provider "m365" w1 = 0 ∧ errors_of_provider "m365" w2 = 1)
    by (by vm_compute).
  split; [exact Hruns|].
  intros (read & Hread). revert Hruns.
  destruct (seed_services "dev" false first_put_fails) as [r1 w1] eqn:H1.
  destruct (seed_services "dev" false entraid_put_fails) as [r2 w2] eqn:H2.
  intros (-> & -> & _ & Ha1 & Ha2 & _).
  pose proof (Hread first_put_fails _ _ "aws" eq_refl H1) as E1.
  pose proof (Hread entraid_put_fails _ _ "aws" eq_refl H2) as E2.
  rewrite Ha1 in E1. rewrite Ha2 in E2. congruence.
Qed.

Lemma pretty_87 : pretty 87 = "87".
Proof. by vm_compute. Qed.

(** C7, amended. [seed_services] returns the three totals [processed],
    [written] and [errors] of the run, not grouped: [processed] is 87,
    [errors] is the number of writes that raised (none in a dry run) and
    [written] is the rest.  The number of processed records per provider and
    per category is printed, not returned, and [written] and [errors] are
    not broken down by provider or category anywhere.  A run returns and
    prints these when it reaches the loop: every dry run, and every real run
    whose table handle is built. *)
Theorem seed_services_summary (environment : string) (dry_run : bool)
    (w : World) :
  table_ready dry_run w →
  ensures (seed_services environment dry_run) w (λ s w',
    processed s = 87 ∧
    errors s =
      (if dry_run then 0
       else count_throws (put_item_outcome w) (length (put_calls w)) 87) ∧
    written s = 87 - errors s ∧
    stdout w' = stdout w ++
      [ newline +:+ str_repeat "=" 80;
        "Seeding Summary";
        str_repeat "=" 80;
        "Total services: 87";
        "Written: " +:+ pretty (written s);
        "Errors: " +:+ pretty (errors s);
        newline +:+ "By provider:";
        "  aws: 83"; "  m365: 4";
        newline +:+ "By category:";
        "  ai_ml: 3"; "  analytics: 7"; "  collaboration: 1";
        "  compute: 10"; "  database: 9"; "  identity: 1";
        "  integration: 9"; "  management: 13"; "  networking: 9";
        "  security: 15"; "  storage: 10";
        newline +:+ "Feature coverage:";
        "  CSPM: 87 services (all)";
        "  Assets: 8 services (bedrock, ec2, ecs, eks, entraid, iam, intune, lambda)";
        "  Data Discovery: 10 services (dynamodb, ec2, efs, fsx, neptune, onedrive, rds, redshift, s3, sharepoint)";
        str_repeat "=" 80 ]).
Proof.
  intros Hready.
  eapply ensures_mono; [by apply seed_services_spec|].
  intros s w' (c & w1 & [Hp Hw He Hc Hpr _ _ _ Hout _] & -> & ->).
  rewrite all_services_length in *.
  cbn [stats processed written errors items_by_category items_by_provider]
    in Hp, Hw, He, Hc, Hpr.
  split; [lia|]. split; [exact He|]. split; [lia|].
  cbn [printed stdout]. rewrite Hout. cbn [announced stdout]. f_equal.
  unfold summary_lines.
  rewrite Hc, Hpr, by_provider_lines, by_category_lines.
  destruct feature_coverage_lines as [-> ->].
  replace (processed (stats c)) with 87 by lia.
  rewrite pretty_87. reflexivity.
Qed.

(** C7, amended, at a real run in the calm world. *)
Lemma seed_services_summary_calm :
  ∃ s w', seed_services "dev" false calm = (Ok s, w') ∧
          processed s = 87 ∧ errors s = 0 ∧ written s = 87 ∧
          stdout w' !! 7%nat = Some "  aws: 83" ∧
          stdout w' !! 8%nat = Some "  m365: 4".
Proof.
  destruct (seed_services_summary "dev" false calm)
    as (s & w' & Hrun & Hp & He & Hw & Hout).
  { vm_compute. reflexivity. }
  exists s, w'. split; [exact Hrun|]. split; [exact Hp|].
  change (errors s = 0) in He. rewrite He in Hw.
  split; [exact He|]. split; [exact Hw|].
  rewrite Hout. split; reflexivity.
Defined.

(** * Properties of [verify_table] *)

(** [verify_table] is the construction of the table handle followed by the
    verification pass. *)
Lemma verify_table_built fuel environment w :
  table_built w →
  verify_table fuel environment w = verify_pass fuel (connected w).
Proof.
  intros Hbuilt. unfold verify_table.
  unfold mbind, M_bind at 1.
  rewrite dynamodb_table_returns by exact Hbuilt. reflexivity.
Qed.

Lemma verify_table_refused fuel environment w err :
  table_outcome w (length (table_calls w)) = Throws err →
  verify_table fuel environment w = (Raise err, connected w).
Proof.
  intros Herr. unfold verify_table.
  unfold mbind, M_bind at 1.
  rewrite dynamodb_table_throws with (err := err) by exact Herr. reflexivity.
Qed.

Lemma scan_returns key w r :
  scan_outcome w (length (scan_calls w)) = Returns r →
  scan key w = (Ok r, scanned key w).
Proof. intros H. unfold scan. by rewrite H. Qed.

Lemma scan_throws key w err :
  scan_outcome w (length (scan_calls w)) = Throws err →
  scan key w = (Raise err, scanned key w).
Proof. intros H. unfold scan. by rewrite H. Qed.

Lemma scanned_length key w :
  length (scan_calls (scanned key w)) = S (length (scan_calls w)).
Proof. cbn. rewrite length_app. simpl. lia. Qed.

(** The pagination loop when the read numbered [k] from here is the first
    one to fail. *)
Lemma scan_rest_fails (k : nat) :
  ∀ fuel response items w err,
    is_Some (LastEvaluatedKey response) →
    (∀ i, (i < k)%nat →
       ∃ r key, scan_outcome w (length (scan_calls w) + i) = Returns r ∧
                LastEvaluatedKey r = Some key) →
    scan_outcome w (length (scan_calls w) + k) = Throws err →
    (k < fuel)%nat →
    ∃ w', scan_rest fuel response items w = (Raise err, w') ∧
          length (scan_calls w') = (length (scan_calls w) + k + 1)%nat ∧
          stdout w' = stdout w ∧ put_calls w' = put_calls w ∧
          log w' = log w.
Proof.
  induction k as [|k IH]; intros fuel response items w err [key Hkey] Hok Herr Hfuel;
    destruct fuel as [|fuel]; try lia; simpl; rewrite Hkey.
  - rewrite Nat.add_0_r in Herr.
    exists (scanned (Some key) w). split.
    + unfold mbind, M_bind. by rewrite (scan_throws _ _ _ Herr).
    + rewrite scanned_length. repeat split; lia.
  - destruct (Hok 0%nat ltac:(lia)) as (r & key' & Hr & Hkey').
    rewrite Nat.add_0_r in Hr.
    destruct (IH fuel r (items ++ default [] (Items r))
                (scanned (Some key) w) err) as (w' & Hrun & Hlen & Hrest).
    + by exists key'.
    + intros i Hi. destruct (Hok (S i) ltac:(lia)) as (r' & key'' & Hr' & Hk').
      exists r', key''. split; [|done].
      rewrite scanned_length. cbn [scanned scan_outcome].
      by replace (S (length (scan_calls w)) + i)%nat
        with (length (scan_calls w) + S i)%nat by lia.
    + rewrite scanned_length. cbn [scanned scan_outcome].
      by replace (S (length (scan_calls w)) + k)%nat
        with (length (scan_calls w) + S k)%nat by lia.
    + lia.
    + exists w'. split.
      * unfold mbind, M_bind at 1. rewrite (scan_returns _ _ _ Hr). exact Hrun.
      * rewrite scanned_length in Hlen. destruct Hrest as (? & ? & ?).
        repeat split; [lia|done..].
Qed.

(** The verification pass when the read numbered [k] from here is the first
    one to fail. *)
Lemma verify_pass_read_failure (fuel : nat)
    (w : World) (k : nat) (err : string) :
  (∀ i, (i < k)%nat →
     ∃ r key, scan_outcome w (length (scan_calls w) + i) = Returns r ∧
              LastEvaluatedKey r = Some key) →
  scan_outcome w (length (scan_calls w) + k) = Throws err →
  (k ≤ fuel)%nat →
  ∃ w', verify_pass fuel w = (Ok (), w') ∧
        stdout w' = stdout w ++
          [ "Verifying master-integrations table: master-integrations";
            str_repeat "=" 80;
            "Error verifying table: " +:+ err;
            str_repeat "=" 80 ] ∧
        length (scan_calls w') = (length (scan_calls w) + k + 1)%nat ∧
        put_calls w' = put_calls w.
Proof.
  intros Hok Herr Hfuel.
  set (w0 := printed ["Verifying master-integrations table: master-integrations";
                      str_repeat "=" 80] w).
  assert (Hbody : ∃ w1, verify_body fuel w0 = (Raise err, w1) ∧
            length (scan_calls w1) = (length (scan_calls w) + k + 1)%nat ∧
            stdout w1 = stdout w0 ∧ put_calls w1 = put_calls w).
  { unfold verify_body. destruct k as [|k].
    - rewrite Nat.add_0_r in Herr.
      exists (scanned None w0). split.
      + unfold mbind, M_bind at 1. by rewrite (scan_throws None w0 err Herr).
      + rewrite scanned_length. subst w0. cbn. repeat split; lia.
    - destruct (Hok 0%nat ltac:(lia)) as (r & key & Hr & Hkey).
      rewrite Nat.add_0_r in Hr.
      destruct (scan_rest_fails k fuel r (default [] (Items r))
                  (scanned None w0) err) as (w1 & Hrun & Hlen & Hout & Hput & _).
      + by exists key.
      + intros i Hi. destruct (Hok (S i) ltac:(lia)) as (r' & key' & Hr' & Hk').
        exists r', key'. split; [|done].
        rewrite scanned_length. subst w0. cbn [scanned printed scan_outcome scan_calls].
        by replace (S (length (scan_calls w)) + i)%nat
          with (length (scan_calls w) + S i)%nat by lia.
      + rewrite scanned_length. subst w0. cbn [scanned printed scan_outcome scan_calls].
        by replace (S (length (scan_calls w)) + k)%nat
          with (length (scan_calls w) + S k)%nat by lia.
      + lia.
      + exists w1. split.
        * unfold mbind, M_bind at 1. rewrite (scan_returns None w0 r Hr).
          unfold mbind, M_bind at 1. by rewrite Hrun.
        * rewrite scanned_length in Hlen. subst w0.
          cbn [scanned printed scan_calls] in Hlen.
          repeat split; [lia|done..]. }
  destruct Hbody as (w1 & Hrun & Hlen & Hout & Hput).
  exists (printed ["Error verifying table: " +:+ err; str_repeat "=" 80] w1).
  split.
  - unfold verify_pass. rewrite !bind_print, printed_printed.
    change (printed _ w) with w0.
    unfold mbind, M_bind at 1. unfold try_except. rewrite Hrun.
    rewrite !print_eq. by rewrite printed_printed.
  - cbn [printed stdout scan_calls put_calls]. rewrite Hout. subst w0.
    cbn [printed stdout]. rewrite <- app_assoc. by repeat split.
Qed.

(** C6. If a read of the scan fails (the first [k] reads each return a page
    with a continuation key and the next read raises [err]), then
    [verify_table] returns normally: the exception does not leave it.  It
    prints its heading, the line reporting the failure and the closing rule,
    and nothing else (no count, no feature list); the failed read is the
    last storage call, so it is not retried.  Reads are issued through the
    table handle, so the handle has been built. *)
Theorem verify_table_read_failure (environment : string) (fuel : nat)
    (w : World) (k : nat) (err : string) :
  table_built w →
  (∀ i, (i < k)%nat →
     ∃ r key, scan_outcome w (length (scan_calls w) + i) = Returns r ∧
              LastEvaluatedKey r = Some key) →
  scan_outcome w (length (scan_calls w) + k) = Throws err →
  (k ≤ fuel)%nat →
  ∃ w', verify_table fuel environment w = (Ok (), w') ∧
        stdout w' = stdout w ++
          [ "Verifying master-integrations table: master-integrations";
            str_repeat "=" 80;
            "Error verifying table: " +:+ err;
            str_repeat "=" 80 ] ∧
        length (scan_calls w') = (length (scan_calls w) + k + 1)%nat ∧
        put_calls w' = put_calls w.
Proof.
  intros Hbuilt Hok Herr Hfuel.
  rewrite (verify_table_built fuel environment w Hbuilt).
  exact (verify_pass_read_failure fuel (connected w) k err Hok Herr Hfuel).
Qed.

Lemma verify_table_second_read_fails :
  ∃ w', verify_table 1 "dev" second_read_fails = (Ok (), w') ∧
        stdout w' = stdout second_read_fails ++
          [ "Verifying master-integrations table: master-integrations";
            str_repeat "=" 80;
            "Error verifying table: " +:+ "RequestTimeout";
            str_repeat "=" 80 ] ∧
        length (scan_calls w') =
          (length (scan_calls second_read_fails) + 1 + 1)%nat ∧
        put_calls w' = put_calls second_read_fails.
Proof.
  refine (verify_table_read_failure "dev" 1 second_read_fails 1
            "RequestTimeout" _ _ _ _).
  - reflexivity.
  - intros i Hi. assert (i = 0%nat) as -> by lia.
    exists first_page, {[ "pk" := "aws#iam" ]}. split; reflexivity.
  - reflexivity.
  - lia.
Defined.

(** The pass that is cut short above, when both reads succeed. *)
Example verify_table_two_pages :
  let (r, w') := verify_table 1 "dev" two_pages in
  r = Ok () ∧ length (scan_calls w') = 2%nat ∧
  stdout w' =
    [ "Verifying master-integrations table: master-integrations";
      str_repeat "=" 80;
      "Total items: 3";
      newline +:+ "By provider:"; "  aws: 2"; "  m365: 1";
      newline +:+ "By category:";
      "  compute: 1"; "  security: 1"; "  storage: 1";
      newline +:+ "Feature coverage:";
      "  CSPM enabled: 3"; "  Assets enabled: 2";
      "  Data Discovery enabled: 2";
      newline +:+ "Services with Assets feature:";
      "  - [aws] ec2: EC2 (Elastic Compute Cloud)";
      "  - [aws] iam: IAM (Identity and Access Management)";
      newline +:+ "Services with Data Discovery feature:";
      "  - [aws] ec2: EC2 (Elastic Compute Cloud)";
      "  - [m365] onedrive: OneDrive for Business";
      str_repeat "=" 80 ].
Proof. by vm_compute. Qed.

(** Without a bound large enough for the pages that the storage returns, the
    model reports the cut and nothing else. *)
Example verify_table_out_of_fuel :
  (verify_table 0 "dev" two_pages).1 = OutOfFuel.
Proof. by vm_compute. Qed.

(** * Further properties of [verify_table] *)

Lemma keeps_ret {A} (R : World → World → Prop) `{!Reflexive R} (a : A) :
  keeps R (mret a : M A).
Proof. intros w. cbn. reflexivity. Qed.

Lemma keeps_bind {A B} (R : World → World → Prop) `{!Transitive R}
    (m : M A) (f : A → M B) :
  keeps R m → (∀ a, keeps R (f a)) → keeps R (m ≫= f).
Proof.
  intros Hm Hf w. unfold mbind, M_bind.
  specialize (Hm w). destruct (m w) as [[a|e|] w1]; cbn in *; [|done..].
  etrans; [exact Hm|]. apply Hf.
Qed.

Lemma keeps_try_except {A} (R : World → World → Prop) `{!Transitive R}
    (body : M A) (handler : string → M A) :
  keeps R body → (∀ e, keeps R (handler e)) →
  keeps R (try_except body handler).
Proof.
  intros Hm Hh w. unfold try_except.
  specialize (Hm w). destruct (body w) as [[a|e|] w1]; cbn in *; [done| |done].
  etrans; [exact Hm|]. apply Hh.
Qed.

Lemma keeps_for_each {A S} (R : World → World → Prop)
    `{!Reflexive R} `{!Transitive R} (body : S → A → M S) (l : list A) acc :
  (∀ acc x, keeps R (body acc x)) → keeps R (for_each l body acc).
Proof.
  intros Hbody. revert acc.
  induction l as [|x l IH]; intros acc; simpl.
  - by apply keeps_ret.
  - apply keeps_bind; [done|apply Hbody|apply IH].
Qed.

#[local] Instance no_writes_refl : Reflexive no_writes.
Proof. intros w. repeat split. Qed.

#[local] Instance no_writes_trans : Transitive no_writes.
Proof.
  intros w1 w2 w3 (? & ? & ? & ? & ?) (? & ? & ? & ? & ?).
  repeat split; try congruence. all: by eapply same_oracles_trans.
Qed.

Lemma print_no_writes line : keeps no_writes (print line).
Proof. intros w. by repeat split. Qed.

Lemma scan_no_writes key : keeps no_writes (scan key).
Proof.
  intros w. unfold scan.
  destruct (scan_outcome w (length (scan_calls w))); by repeat split.
Qed.

Lemma scan_rest_no_writes fuel response items :
  keeps no_writes (scan_rest fuel response items).
Proof.
  revert response items.
  induction fuel as [|fuel IH]; intros response items; simpl;
    destruct (LastEvaluatedKey response).
  - intros w. by repeat split.
  - by apply keeps_ret.
  - apply keeps_bind; [apply _|apply scan_no_writes|]. intros r. apply IH.
  - by apply keeps_ret.
Qed.

Ltac keeps_step :=
  first
    [ apply print_no_writes
    | apply scan_no_writes
    | apply scan_rest_no_writes
    | apply keeps_ret; apply _
    | apply keeps_bind; [apply _| |intros ?]
    | apply keeps_for_each; [apply _|apply _|intros ? ?]
    | apply keeps_try_except; [apply _| |intros ?] ].

Lemma verify_body_no_writes fuel : keeps no_writes (verify_body fuel).
Proof.
  unfold verify_body, print_feature_list.
  repeat keeps_step.
  all: try (match goal with |- keeps _ (let '(_, _) := ?p in _) =>
                destruct p end; keeps_step).
  all: case_bool_decide; keeps_step.
Qed.

Lemma verify_pass_no_writes fuel : keeps no_writes (verify_pass fuel).
Proof.
  unfold verify_pass.
  apply keeps_bind; [apply _|apply print_no_writes|intros _].
  apply keeps_bind; [apply _|apply print_no_writes|intros _].
  apply keeps_bind; [apply _| |intros _; apply print_no_writes].
  apply keeps_try_except;
    [apply _|apply verify_body_no_writes|intros err; apply print_no_writes].
Qed.

Lemma verify_pass_never_raises fuel w e : (verify_pass fuel w).1 ≠ Raise e.
Proof.
  unfold verify_pass. rewrite !bind_print.
  unfold mbind, M_bind at 1. unfold try_except.
  destruct (verify_body fuel _) as [[[]|err|] w1]; cbn; congruence.
Qed.

(** What [verify_table] leaves alone, however it ends. *)
Lemma verify_table_frame fuel environment w :
  put_calls (verify_table fuel environment w).2 = put_calls w ∧
  log (verify_table fuel environment w).2 = log w ∧
  ticks (verify_table fuel environment w).2 = ticks w ∧
  table_calls (verify_table fuel environment w).2 =
    table_calls w ++ ["master-integrations"].
Proof.
  destruct (table_outcome w (length (table_calls w))) as [[]|err] eqn:Hout.
  - rewrite (verify_table_built fuel environment w Hout).
    destruct (verify_pass_no_writes fuel (connected w)) as (? & ? & ? & ? & _).
    done.
  - rewrite (verify_table_refused fuel environment w err Hout). done.
Qed.

(** X1. [verify_table] is a read-only pass: however it ends, it has issued
    no [put_item] call, emitted no log record and not read the clock, and it
    has asked once for the handle of the table [master-integrations].  The
    only exception that can leave it is one raised while that handle is
    built, before the [try]: then nothing is printed and no read is issued.
    Once the handle is built, no exception leaves it, whatever the reads
    do. *)
Theorem verify_table_read_only (fuel : nat) (environment : string)
    (w : World) :
  put_calls (verify_table fuel environment w).2 = put_calls w ∧
  log (verify_table fuel environment w).2 = log w ∧
  ticks (verify_table fuel environment w).2 = ticks w ∧
  table_calls (verify_table fuel environment w).2 =
    table_calls w ++ ["master-integrations"] ∧
  match table_outcome w (length (table_calls w)) with
  | Returns _ => ∀ e, (verify_table fuel environment w).1 ≠ Raise e
  | Throws err =>
      (verify_table fuel environment w).1 = Raise err ∧
      stdout (verify_table fuel environment w).2 = stdout w ∧
      scan_calls (verify_table fuel environment w).2 = scan_calls w
  end.
Proof.
  destruct (verify_table_frame fuel environment w) as (Hp & Hl & Ht & Hc).
  repeat (split; [done|]).
  destruct (table_outcome w (length (table_calls w))) as [[]|err] eqn:Hout.
  - intros e. rewrite (verify_table_built fuel environment w Hout).
    apply verify_pass_never_raises.
  - by rewrite (verify_table_refused fuel environment w err Hout).
Qed.

(** * Counting dictionaries *)

Lemma sum_counts_insert_fresh k v (d : gmap string Z) :
  d !! k = None → sum_counts (<[k:=v]> d) = v + sum_counts d.
Proof.
  intros Hk. unfold sum_counts.
  rewrite map_fold_insert_L; [done| |done]. intros; lia.
Qed.

Lemma sum_counts_tally k (d : gmap string Z) :
  sum_counts (tally k d) = sum_counts d + 1.
Proof.
  unfold tally. destruct (d !! k) as [v|] eqn:Hk; simpl.
  - rewrite <- (insert_delete_eq d k (v + 1)).
    rewrite sum_counts_insert_fresh by apply lookup_delete_eq.
    rewrite <- (insert_delete_id d k v Hk) at 2.
    rewrite sum_counts_insert_fresh by apply lookup_delete_eq. lia.
  - rewrite sum_counts_insert_fresh by done. lia.
Qed.

Lemma sum_counts_tally_all {A} (key : A → string) d (l : list A) :
  sum_counts (tally_all key d l) = sum_counts d + Z.of_nat (length l).
Proof.
  induction l as [|x l IH] using rev_ind.
  - simpl. lia.
  - rewrite tally_all_snoc, sum_counts_tally, IH, length_app. simpl. lia.
Qed.

Lemma sum_counts_empty : sum_counts ∅ = 0.
Proof. unfold sum_counts. by rewrite map_fold_empty. Qed.

Lemma count_flagged_snoc k items item :
  count_flagged k (items ++ [item]) =
  count_flagged k items +
  (if bool_decide (item !! k = Some "true") then 1 else 0).
Proof.
  unfold count_flagged. rewrite filter_app, length_app.
  case_bool_decide.
  - rewrite filter_cons_True by done. simpl. lia.
  - rewrite filter_cons_False by done. simpl. lia.
Qed.

Lemma count_flagged_bounds k items :
  0 ≤ count_flagged k items ≤ Z.of_nat (length items).
Proof.
  unfold count_flagged.
  pose proof (length_filter (λ item : gmap string string,
                               item !! k = Some "true") items). lia.
Qed.

Lemma count_of_tally k' k (d : gmap string Z) :
  count_of k (tally k' d) = count_of k d + (if decide (k' = k) then 1 else 0).
Proof.
  unfold count_of, tally. destruct (decide (k' = k)) as [->|Hne].
  - by rewrite lookup_insert_eq.
  - rewrite lookup_insert_ne by done. lia.
Qed.

Lemma get_or_unknown attr k item :
  get_or attr "unknown" item = k ↔ filed_under attr k item.
Proof.
  unfold get_or, filed_under. destruct (item !! attr) as [v|]; simpl.
  - split; [intros ->; by left|]. intros [H|[H _]]; congruence.
  - split; [intros <-; by right|]. intros [H|[_ H]]; congruence.
Qed.

Lemma filed_under_snoc attr k items item :
  Z.of_nat (length (filter (filed_under attr k) (items ++ [item]))) =
  Z.of_nat (length (filter (filed_under attr k) items)) +
  (if decide (get_or attr "unknown" item = k) then 1 else 0).
Proof.
  rewrite filter_app, length_app.
  destruct (decide (get_or attr "unknown" item = k)) as [Hk|Hk].
  - rewrite filter_cons_True by (by apply get_or_unknown). simpl. lia.
  - rewrite filter_cons_False by (by rewrite <- get_or_unknown). simpl. lia.
Qed.

(** The per-provider and per-category counts of the tally, key by key. *)
Lemma verify_tally_per_key (items : list (gmap string string)) (k : string) :
  count_of k (by_provider (foldl count_item (mkTally ∅ ∅ 0 0 0) items)) =
    Z.of_nat (length (filter (filed_under "provider" k) items)) ∧
  count_of k (by_category (foldl count_item (mkTally ∅ ∅ 0 0 0) items)) =
    Z.of_nat (length (filter (filed_under "category" k) items)).
Proof.
  induction items as [|item items [IHp IHc]] using rev_ind.
  - by cbn.
  - rewrite foldl_app. cbn [foldl].
    set (t := foldl count_item _ items) in *.
    cbn [count_item by_provider by_category].
    rewrite !count_of_tally, !filed_under_snoc, IHp, IHc. done.
Qed.

(** X2. The tallies that [verify_table] computes over the items it read.
    Under each key the per-provider count is the number of items that carry
    this provider, an item without the attribute being counted under
    [unknown]; likewise per category.  The per-provider counts add up to the
    number of items, and so do the per-category counts.  Each feature count
    is the number of items whose flag is the string ["true"], hence between
    zero and the number of items. *)
Theorem verify_tally_totals (items : list (gmap string string)) (k : string) :
  let t := foldl count_item (mkTally ∅ ∅ 0 0 0) items in
  count_of k (by_provider t) =
    Z.of_nat (length (filter (filed_under "provider" k) items)) ∧
  count_of k (by_category t) =
    Z.of_nat (length (filter (filed_under "category" k) items)) ∧
  count_of "unknown" (by_provider t) =
    Z.of_nat (length (filter (λ item, item !! "provider" = None ∨
                                      item !! "provider" = Some "unknown")
                             items)) ∧
  sum_counts (by_provider t) = Z.of_nat (length items) ∧
  sum_counts (by_category t) = Z.of_nat (length items) ∧
  cspm_count t = count_flagged "cspmEnabled" items ∧
  assets_count t = count_flagged "assetsEnabled" items ∧
  data_discovery_count t = count_flagged "dataDiscoveryEnabled" items ∧
  0 ≤ cspm_count t ≤ Z.of_nat (length items) ∧
  0 ≤ assets_count t ≤ Z.of_nat (length items) ∧
  0 ≤ data_discovery_count t ≤ Z.of_nat (length items).
Proof.
  cbn zeta.
  destruct (verify_tally_per_key items k) as (Hkp & Hkc).
  split; [exact Hkp|]. split; [exact Hkc|].
  split.
  { destruct (verify_tally_per_key items "unknown") as (-> & _).
    f_equal. f_equal. apply list_filter_iff. intros item.
    unfold filed_under. split.
    - intros [H|[H _]]; [by right|by left].
    - intros [H|H]; [right; by split|by left]. }
  clear Hkp Hkc.
  assert (H : sum_counts (by_provider (foldl count_item (mkTally ∅ ∅ 0 0 0) items))
              = Z.of_nat (length items) ∧
            sum_counts (by_category (foldl count_item (mkTally ∅ ∅ 0 0 0) items))
              = Z.of_nat (length items) ∧
            cspm_count (foldl count_item (mkTally ∅ ∅ 0 0 0) items)
              = count_flagged "cspmEnabled" items ∧
            assets_count (foldl count_item (mkTally ∅ ∅ 0 0 0) items)
              = count_flagged "assetsEnabled" items ∧
            data_discovery_count (foldl count_item (mkTally ∅ ∅ 0 0 0) items)
              = count_flagged "dataDiscoveryEnabled" items).
  { induction items as [|item items IH] using rev_ind.
    - cbn. rewrite sum_counts_empty. done.
    - rewrite foldl_app. cbn [foldl]. destruct IH as (Hp & Hc & H1 & H2 & H3).
      rewrite !count_flagged_snoc, length_app.
      set (t := foldl count_item _ items) in *.
      cbn [count_item by_provider by_category cspm_count assets_count
           data_discovery_count].
      rewrite !sum_counts_tally, Hp, Hc. simpl length.
      repeat split; try lia; repeat case_bool_decide; lia. }
  destruct H as (Hp & Hc & -> & -> & ->).
  repeat split; try done; apply count_flagged_bounds.
Qed.

(** X3. The loop of [seed_services], run over any list of entries from
    zeroed counters, returns normally, and the per-provider counts as well
    as the per-category counts it has built add up to [processed]. *)
Theorem seed_loop_group_totals (dry_run : bool)
    (l : list (Config.t * string)) (w : World) :
  ensures (for_each l (seed_one dry_run) (mkCounters (mkStats 0 0 0) ∅ ∅)) w
    (λ c _,
      processed (stats c) = Z.of_nat (length l) ∧
      sum_counts (items_by_provider c) = processed (stats c) ∧
      sum_counts (items_by_category c) = processed (stats c)).
Proof.
  eapply ensures_mono; [apply seed_loop_spec|].
  intros c w' [Hp _ _ Hc Hpr _ _ _ _ _].
  cbn [stats processed items_by_category items_by_provider] in Hp, Hc, Hpr.
  rewrite Hc, Hpr, !sum_counts_tally_all, sum_counts_empty. lia.
Qed.

(** * Sorting and the feature lists of [verify_table] *)

Lemma insert_by_perm {A} (key : A → string) x (l : list A) :
  insert_by key x l ≡ₚ x :: l.
Proof.
  induction l as [|y l IH]; simpl; [done|].
  destruct (String.leb (key x) (key y)); [done|].
  rewrite IH. apply Permutation_swap.
Qed.

Lemma sorted_by_perm {A} (key : A → string) (l : list A) :
  sorted_by key l ≡ₚ l.
Proof.
  induction l as [|x l IH]; simpl; [done|].
  unfold sorted_by in *. simpl. by rewrite insert_by_perm, IH.
Qed.

Lemma insert_by_HdRel {A} (key : A → string) a x (l : list A) :
  key_le key a x → HdRel (key_le key) a l →
  HdRel (key_le key) a (insert_by key x l).
Proof.
  intros Hax Hal. destruct l as [|y l]; simpl; [by constructor|].
  destruct (String.leb (key x) (key y)); constructor; [done|].
  by inversion Hal.
Qed.

Lemma insert_by_sorted {A} (key : A → string) x (l : list A) :
  Sorted (key_le key) l → Sorted (key_le key) (insert_by key x l).
Proof.
  induction 1 as [|y l Hl IH Hhd]; simpl.
  - by repeat constructor.
  - destruct (String.leb (key x) (key y)) eqn:Hxy.
    + constructor; [by constructor|]. constructor.
      unfold key_le, String.le. by rewrite Hxy.
    + constructor; [done|]. apply insert_by_HdRel; [|done].
      destruct (total String.le (key x) (key y)) as [H|H]; [|done].
      unfold String.le in H. by rewrite Hxy in H.
Qed.

Lemma sorted_by_sorted {A} (key : A → string) (l : list A) :
  Sorted (key_le key) (sorted_by key l).
Proof.
  induction l as [|x l IH]; [constructor|].
  unfold sorted_by in *. simpl. by apply insert_by_sorted.
Qed.

Lemma print_feature_list_eq k items w :
  print_feature_list k items w =
  (Ok (), printed (feature_line <$> flagged_by_pk k items) w).
Proof.
  unfold print_feature_list, flagged_by_pk.
  generalize (sorted_by (get_or "pk" EmptyString) items). intros l. revert w.
  induction l as [|item l IH]; intros w.
  - simpl. by rewrite printed_nil.
  - cbn [for_each]. case_bool_decide as Hflag.
    + rewrite filter_cons_True by done.
      rewrite bind_print, IH, printed_printed. reflexivity.
    + rewrite filter_cons_False by done.
      unfold mbind, M_bind at 1. cbn. apply IH.
Qed.

(** X4. The feature lists of [verify_table]: for the flag [k] the loop
    returns normally and prints one line for each item whose flag is the
    string ["true"] and no other line, an item read several times being
    listed as many times; the lines follow the order of [pk] (an item
    without [pk] sorting as the empty string). *)
Theorem print_feature_list_lines (k : string)
    (items : list (gmap string string)) (w : World) :
  print_feature_list k items w =
    (Ok (), printed (feature_line <$> flagged_by_pk k items) w) ∧
  flagged_by_pk k items ≡ₚ filter (λ item, item !! k = Some "true") items ∧
  Sorted (key_le (get_or "pk" EmptyString)) (flagged_by_pk k items).
Proof.
  split; [apply print_feature_list_eq|]. split.
  - unfold flagged_by_pk. by rewrite sorted_by_perm.
  - unfold flagged_by_pk.
    pose proof (sorted_by_sorted (get_or "pk" EmptyString) items) as Hs.
    apply Sorted_StronglySorted in Hs.
    + apply StronglySorted_Sorted.
      induction Hs as [|x l Hl IH Hall]; simpl; [constructor|].
      destruct (decide (x !! k = Some "true")).
      * rewrite filter_cons_True by done. constructor; [done|].
        apply list.Forall_forall. intros y Hy.
        apply list_elem_of_filter in Hy as [_ Hy].
        rewrite list.Forall_forall in Hall. by apply Hall.
      * by rewrite filter_cons_False.
    + intros a b c Hab Hbc. unfold key_le in *. by etrans.
Qed.

(** * A verification pass whose reads all succeed *)

Lemma scanned_all_nil w : scanned_all [] w = w.
Proof. destruct w. unfold scanned_all. cbn. by rewrite app_nil_r. Qed.

Lemma scanned_scanned_all key keys w :
  scanned_all keys (scanned key w) = scanned_all (key :: keys) w.
Proof. unfold scanned_all, scanned. cbn. by rewrite <- app_assoc. Qed.

Lemma continuation_keys_Some f n r rest :
  served f n r rest → Forall is_Some (continuation_keys r rest).
Proof.
  revert n r. induction rest as [|r' rest IH]; intros n r; simpl.
  - constructor.
  - intros (Hkey & _ & Hrest). constructor; [done|]. by eapply IH.
Qed.

(** The pagination loop when the storage serves the pages [rest]. *)
Lemma scan_rest_pages (rest : list ScanResponse) :
  ∀ fuel r items w,
    served (scan_outcome w) (length (scan_calls w)) r rest →
    (length rest ≤ fuel)%nat →
    scan_rest fuel r items w =
      (Ok (items ++ concat (page_items <$> rest)),
       scanned_all (continuation_keys r rest) w).
Proof.
  induction rest as [|r' rest IH]; intros fuel r items w Hserved Hfuel.
  - simpl in Hserved. rewrite app_nil_r. cbn [continuation_keys].
    rewrite scanned_all_nil.
    destruct fuel; simpl; by rewrite Hserved.
  - destruct Hserved as ([key Hkey] & Hr' & Hrest).
    destruct fuel as [|fuel]; [simpl in Hfuel; lia|].
    simpl. rewrite Hkey.
    unfold mbind, M_bind at 1. rewrite (scan_returns _ _ _ Hr').
    rewrite (IH fuel r' _ (scanned (Some key) w)).
    + rewrite scanned_scanned_all, <- app_assoc. reflexivity.
    + rewrite scanned_length. exact Hrest.
    + simpl in Hfuel. lia.
Qed.

Lemma verify_body_pages fuel w first rest :
  scan_outcome w (length (scan_calls w)) = Returns first →
  served (scan_outcome w) (S (length (scan_calls w))) first rest →
  (length rest ≤ fuel)%nat →
  verify_body fuel w =
    (Ok (),
     printed (report_lines (concat (page_items <$> first :: rest)))
             (scanned_all (None :: continuation_keys first rest) w)).
Proof.
  intros Hfirst Hserved Hfuel. unfold verify_body.
  unfold mbind, M_bind at 1. rewrite (scan_returns None w first Hfirst).
  unfold mbind, M_bind at 1.
  rewrite (scan_rest_pages rest fuel first _ (scanned None w));
    [|by rewrite scanned_length|done].
  rewrite scanned_scanned_all.
  change (default [] (Items first) ++ concat (page_items <$> rest))
    with (concat (page_items <$> first :: rest)).
  generalize (concat (page_items <$> first :: rest)). intros items.
  generalize (scanned_all (None :: continuation_keys first rest) w).
  intros w1. cbn zeta.
  rewrite !bind_print.
  rewrite (bind_for_each_print count_line) by (by intros [] [??]).
  rewrite !bind_print.
  rewrite (bind_for_each_print count_line) by (by intros [] [??]).
  rewrite !bind_print.
  unfold mbind, M_bind at 1. rewrite print_feature_list_eq.
  rewrite !bind_print, print_feature_list_eq.
  rewrite !printed_printed. reflexivity.
Qed.

(** The verification pass when the storage serves the pages [first],
    [rest]. *)
Lemma verify_pass_reports (fuel : nat) (w : World)
    (first : ScanResponse) (rest : list ScanResponse) :
  scan_outcome w (length (scan_calls w)) = Returns first →
  served (scan_outcome w) (S (length (scan_calls w))) first rest →
  (length rest ≤ fuel)%nat →
  ∃ w', verify_pass fuel w = (Ok (), w') ∧
        scan_calls w' =
          scan_calls w ++ None :: continuation_keys first rest ∧
        Forall is_Some (continuation_keys first rest) ∧
        length (continuation_keys first rest) = length rest ∧
        stdout w' = stdout w ++
          [ "Verifying master-integrations table: master-integrations";
            str_repeat "=" 80 ] ++
          report_lines (concat (page_items <$> first :: rest)) ++
          [ str_repeat "=" 80 ].
Proof.
  intros Hfirst Hserved Hfuel.
  eexists. split; [|split; [|split; [|split]]].
  - unfold verify_pass. rewrite !bind_print, printed_printed.
    unfold mbind, M_bind at 1. unfold try_except.
    rewrite (verify_body_pages fuel (printed _ w) first rest
               Hfirst Hserved Hfuel).
    rewrite print_eq, printed_printed. reflexivity.
  - reflexivity.
  - by eapply continuation_keys_Some.
  - clear. revert first. induction rest as [|r rest IH]; intros first;
      simpl; [done|]. by rewrite IH.
  - cbn [printed scanned_all stdout]. by rewrite <- !app_assoc.
Qed.

(** X5. When the table handle is built, the storage serves the table in
    pages (each page but the last carries a continuation key) and the bound
    covers the continuation reads, [verify_table] returns normally after one
    [scan] per page: the first without a start key, each later one with the
    [LastEvaluatedKey] of the page before it.  The report is computed over
    the items of all pages, in the order read, and is printed between the
    heading and the closing rule. *)
Theorem verify_table_reports (environment : string) (fuel : nat) (w : World)
    (first : ScanResponse) (rest : list ScanResponse) :
  table_built w →
  scan_outcome w (length (scan_calls w)) = Returns first →
  served (scan_outcome w) (S (length (scan_calls w))) first rest →
  (length rest ≤ fuel)%nat →
  ∃ w', verify_table fuel environment w = (Ok (), w') ∧
        scan_calls w' =
          scan_calls w ++ None :: continuation_keys first rest ∧
        Forall is_Some (continuation_keys first rest) ∧
        length (continuation_keys first rest) = length rest ∧
        stdout w' = stdout w ++
          [ "Verifying master-integrations table: master-integrations";
            str_repeat "=" 80 ] ++
          report_lines (concat (page_items <$> first :: rest)) ++
          [ str_repeat "=" 80 ].
Proof.
  intros Hbuilt Hfirst Hserved Hfuel.
  rewrite (verify_table_built fuel environment w Hbuilt).
  exact (verify_pass_reports fuel (connected w) first rest
           Hfirst Hserved Hfuel).
Qed.

Lemma verify_table_reports_two_pages :
  ∃ w', verify_table 1 "dev" two_pages = (Ok (), w') ∧
        scan_calls w' =
          scan_calls two_pages ++
          None :: continuation_keys first_page [last_page] ∧
        Forall is_Some (continuation_keys first_page [last_page]) ∧
        length (continuation_keys first_page [last_page]) =
          length [last_page] ∧
        stdout w' = stdout two_pages ++
          [ "Verifying master-integrations table: master-integrations";
            str_repeat "=" 80 ] ++
          report_lines (concat (page_items <$> [first_page; last_page])) ++
          [ str_repeat "=" 80 ].
Proof.
  refine (verify_table_reports "dev" 1 two_pages first_page [last_page]
            _ _ _ _).
  - reflexivity.
  - reflexivity.
  - simpl. split; [by eexists|]. split; reflexivity.
  - simpl. lia.
Defined.

(** * Further properties of [seed_services] *)

(** A postcondition of the loop carries over to [seed_services]. *)
Lemma seed_services_post (environment : string) (dry_run : bool) (w : World)
    (Q : Counters → World → Prop) :
  table_ready dry_run w →
  ensures (for_each all_services (seed_one dry_run) zeroed)
          (announced dry_run w) Q →
  ensures (seed_services environment dry_run) w (λ s w',
    ∃ c w1, Q c w1 ∧ s = stats c ∧ w' = printed (summary_lines c) w1).
Proof.
  intros Hready Hloop. unfold seed_services.
  apply ensures_bind. eexists (), _. split; [reflexivity|].
  apply ensures_bind. exists (), (announced dry_run w). split.
  { destruct dry_run; cbn [negb]; [reflexivity|].
    rewrite dynamodb_table_returns by exact Hready. reflexivity. }
  apply ensures_bind.
  eapply ensures_mono; [exact Hloop|].
  intros c w1 HQ. cbn beta.
  apply ensures_bind. exists (), (printed (summary_lines c) w1).
  split; [apply print_summary_eq|].
  apply ensures_ret. by exists c, w1.
Qed.

Lemma built_from_shape item e :
  built_from item e →
  well_formed item ∧ pk item = entry_pk e ∧ provider item = e.2.
Proof.
  intros [w H]. cbn in H. injection H as <-.
  unfold well_formed, entry_pk. cbn. by repeat split.
Qed.

Lemma built_from_all items (l : list (Config.t * string)) :
  Forall2 built_from items l →
  Forall well_formed items ∧ pk <$> items = entry_pk <$> l.
Proof.
  induction 1 as [|item e items l Hb _ [IH1 IH2]]; [by split|].
  destruct (built_from_shape item e Hb) as (Hwf & Hpk & _).
  split; [by constructor|]. rewrite !fmap_cons. by rewrite Hpk, IH2.
Qed.

(** X6. In a real run whose table handle is built, every call of
    [put_item] carries a well-formed item: its key is provider, [#],
    service; its collector name is the service name; its two timestamps are
    equal; its string flags spell the booleans of its [features] map.  The
    keys written are, in order and whatever the outcome of each write, those
    of the catalogue entries. *)
Theorem seed_services_writes_well_formed (environment : string) (w : World) :
  table_built w →
  ensures (seed_services environment false) w (λ _ w',
    ∃ items,
      put_calls w' = put_calls w ++ items ∧
      Forall well_formed items ∧
      pk <$> items = entry_pk <$> all_services).
Proof.
  intros Hbuilt.
  eapply ensures_mono; [by apply seed_services_spec|].
  intros s w' (c & w1 & [_ _ _ _ _ _ _ _ _ Htrace] & _ & ->).
  destruct Htrace as (items & records & Hb & Hput & _).
  exists items. split; [exact Hput|]. by apply built_from_all.
Qed.

Lemma seed_services_writes_well_formed_calm :
  ensures (seed_services "dev" false) calm (λ _ w',
    ∃ items,
      put_calls w' = put_calls calm ++ items ∧
      Forall well_formed items ∧
      pk <$> items = entry_pk <$> all_services).
Proof.
  refine (seed_services_writes_well_formed "dev" calm _).
  vm_compute. reflexivity.
Defined.

Lemma seed_loop_timestamps (l : list (Config.t * string)) c0 w0 :
  ensures (for_each l (seed_one false) c0) w0 (λ c w',
    loop_inv false c0 w0 l c w' ∧
    (λ item, (createdAt item, updatedAt item)) <$>
      drop (length (put_calls w0)) (put_calls w') =
    (λ i, (clock w0 (ticks w0 + i)%nat, clock w0 (ticks w0 + i)%nat)) <$>
      seq 0 (length l)).
Proof.
  apply (ensures_for_each (λ done c w',
    loop_inv false c0 w0 done c w' ∧
    (λ item, (createdAt item, updatedAt item)) <$>
      drop (length (put_calls w0)) (put_calls w') =
    (λ i, (clock w0 (ticks w0 + i)%nat, clock w0 (ticks w0 + i)%nat)) <$>
      seq 0 (length done))).
  - split; [apply loop_inv_start|]. by rewrite drop_all.
  - intros done e c w [Hinv Hts].
    eapply ensures_mono; [apply seed_one_spec|].
    intros c' w' Hstep. split; [by eapply loop_inv_step|].
    destruct Hstep as (item & Hitem & _ & _ & _ & _ & _ & _ & _ & Hput & _).
    destruct Hinv as [_ _ _ _ _ (Hclock & _) Hticks _ _
                        (items & records & _ & Hputs & _)].
    cbn in Hitem. injection Hitem as <-.
    rewrite Hput, drop_app_le by (rewrite Hputs, length_app; lia).
    rewrite fmap_app, Hts, length_app, seq_app, fmap_app. cbn.
    by rewrite Hclock, Hticks.
Qed.

(** X7. A real run whose table handle is built reads the clock once per
    record: the record numbered [i] of the run carries, in both timestamps,
    the reading numbered [i] after those taken before the run, so the 87
    records of one run need not share a timestamp, and the run leaves the
    clock 87 readings further. *)
Theorem seed_services_timestamps (environment : string) (w : World) :
  table_built w →
  ensures (seed_services environment false) w (λ _ w',
    ticks w' = (ticks w + 87)%nat ∧
    (λ item, (createdAt item, updatedAt item)) <$>
      drop (length (put_calls w)) (put_calls w') =
    (λ i, (clock w (ticks w + i)%nat, clock w (ticks w + i)%nat)) <$>
      seq 0 87).
Proof.
  intros Hbuilt.
  eapply ensures_mono;
    [apply seed_services_post; [exact Hbuilt|apply seed_loop_timestamps]|].
  intros s w' (c & w1 & [[_ _ _ _ _ _ Hticks _ _ _] Hts] & _ & ->).
  rewrite all_services_length in *. split; [exact Hticks|exact Hts].
Qed.

Lemma seed_services_timestamps_calm :
  ensures (seed_services "dev" false) calm (λ _ w',
    ticks w' = (ticks calm + 87)%nat ∧
    (λ item, (createdAt item, updatedAt item)) <$>
      drop (length (put_calls calm)) (put_calls w') =
    (λ i, (clock calm (ticks calm + i)%nat,
           clock calm (ticks calm + i)%nat)) <$> seq 0 87).
Proof.
  refine (seed_services_timestamps "dev" calm _).
  vm_compute. reflexivity.
Defined.

Lemma pk_inj (p1 p2 s1 s2 : string) :
  hash_free p1 = true → hash_free p2 = true →
  p1 +:+ "#" +:+ s1 = p2 +:+ "#" +:+ s2 → p1 = p2 ∧ s1 = s2.
Proof.
  revert p2. induction p1 as [|a p1 IH]; intros [|b p2] H1 H2 Heq.
  - change (String hash s1 = String hash s2) in Heq. by injection Heq as ->.
  - change (String hash s1 = String b (p2 +:+ "#" +:+ s2)) in Heq.
    injection Heq as <- _. by cbn in H2.
  - change (String a (p1 +:+ "#" +:+ s1) = String hash s2) in Heq.
    injection Heq as -> _. by cbn in H1.
  - change (String a (p1 +:+ "#" +:+ s1) = String b (p2 +:+ "#" +:+ s2))
      in Heq.
    injection Heq as -> Heq.
    cbn in H1, H2. apply andb_true_iff in H1 as [_ H1].
    apply andb_true_iff in H2 as [_ H2].
    destruct (IH p2 H1 H2 Heq) as [-> ->]. done.
Qed.

(** X8. The key determines the record: for providers that contain no [#]
    (as [aws] and [m365]), two built items have the same [pk] exactly when
    they have the same provider and the same service name, whatever the
    service names are. *)
Theorem pk_determines_record (c1 c2 : Config.t) (p1 p2 : string)
    (w1 w2 : World) :
  hash_free p1 = true → hash_free p2 = true →
  ensures (build_service_item c1 p1) w1 (λ item1 _,
    ensures (build_service_item c2 p2) w2 (λ item2 _,
      pk item1 = pk item2 ↔
      provider item1 = provider item2 ∧ service item1 = service item2)).
Proof.
  intros H1 H2.
  eexists _, _. split; [reflexivity|].
  eexists _, _. split; [reflexivity|]. cbn [pk provider service]. split.
  - by apply pk_inj.
  - by intros [-> ->].
Qed.

Lemma pk_determines_record_aws_m365 :
  ensures (build_service_item (entry "intune" "Intune" "management"
             "Device management and compliance") "m365") calm (λ item1 _,
    ensures (build_service_item (entry "ec2" "EC2 (Elastic Compute Cloud)"
               "compute" "Virtual servers in the cloud") "aws") calm
      (λ item2 _,
        pk item1 = pk item2 ↔
        provider item1 = provider item2 ∧ service item1 = service item2)).
Proof.
  refine (pk_determines_record _ _ "m365" "aws" calm calm _ _);
    reflexivity.
Defined.

(** * Properties of [main] *)

#[local] Instance same_table_calls_refl : Reflexive same_table_calls.
Proof. by intros w. Qed.

#[local] Instance same_table_calls_trans : Transitive same_table_calls.
Proof. unfold same_table_calls. intros w1 w2 w3 ? ?. congruence. Qed.

Lemma seed_one_table_calls dry_run c e :
  keeps same_table_calls (seed_one dry_run c e).
Proof.
  intros w. destruct e as [service_config provider0].
  destruct dry_run; [reflexivity|].
  unfold same_table_calls. run_step.
  by destruct (put_item_outcome w (length (put_calls w))).
Qed.

Lemma seed_loop_table_calls dry_run (l : list (Config.t * string)) c w :
  table_calls (for_each l (seed_one dry_run) c w).2 = table_calls w.
Proof.
  apply (keeps_for_each same_table_calls). intros. apply seed_one_table_calls.
Qed.

(** The loop leaves the handle requests alone, and so does the rest of a
    run of [seed_services] that has reached it. *)
Lemma seed_loop_spec_calls dry_run (l : list (Config.t * string)) c0 w0 :
  ensures (for_each l (seed_one dry_run) c0) w0 (λ c w',
    loop_inv dry_run c0 w0 l c w' ∧ table_calls w' = table_calls w0).
Proof.
  destruct (seed_loop_spec dry_run l c0 w0) as (c & w' & Hrun & Hinv).
  exists c, w'. split; [done|]. split; [done|].
  pose proof (seed_loop_table_calls dry_run l c0 w0) as H.
  by rewrite Hrun in H.
Qed.

Lemma seed_services_spec_calls environment dry_run w :
  table_ready dry_run w →
  ensures (seed_services environment dry_run) w (λ s w',
    ∃ c w1,
      (loop_inv dry_run zeroed (announced dry_run w) all_services c w1 ∧
       table_calls w1 = table_calls (announced dry_run w)) ∧
      s = stats c ∧ w' = printed (summary_lines c) w1).
Proof.
  intros Hready. apply seed_services_post; [done|].
  apply seed_loop_spec_calls.
Qed.

(** [main] without [--verify] and without [--dry-run], when the table
    handle cannot be built. *)
Lemma main_refused fuel args w err :
  Args.verify args = false → Args.dry_run args = false →
  table_outcome w (length (table_calls w)) = Throws err →
  main fuel args w = (Raise err, announced false w).
Proof.
  intros Hv Hd Herr. unfold main. rewrite Hv, Hd.
  unfold mbind, M_bind at 1.
  by rewrite (seed_services_refused _ w err Herr).
Qed.

(** [main] when [--verify] is absent: the run of [seed_services], then the
    hint if the run was real and counted no error. *)
Lemma main_seed_eq fuel args w s w1 :
  Args.verify args = false →
  seed_services (Args.environment args) (Args.dry_run args) w = (Ok s, w1) →
  main fuel args w =
    (Ok (), if negb (Args.dry_run args) && (errors s =? 0)
            then printed [hint_line] w1 else w1).
Proof.
  intros Hv Hrun. unfold main. rewrite Hv.
  unfold mbind, M_bind at 1. rewrite Hrun.
  by destruct (negb (Args.dry_run args) && (errors s =? 0)).
Qed.

(** X9. The exceptions that leave [main].  A dry run ([--dry-run] without
    [--verify]) always returns normally.  In the other modes the table
    handle is built outside any [try]: if building it raises, that exception
    leaves [main]; if it is built, no exception leaves [main] whatever the
    writes and reads do, and a seeding run returns normally. *)
Theorem main_exceptions (fuel : nat) (args : Args.t) (w : World) :
  if negb (Args.verify args) && Args.dry_run args
  then (main fuel args w).1 = Ok ()
  else
    match table_outcome w (length (table_calls w)) with
    | Throws err => (main fuel args w).1 = Raise err
    | Returns _ =>
        (∀ e, (main fuel args w).1 ≠ Raise e) ∧
        if Args.verify args then True else (main fuel args w).1 = Ok ()
    end.
Proof.
  destruct (Args.verify args) eqn:Hv; cbn [negb andb].
  - unfold main. rewrite Hv.
    destruct (table_outcome w (length (table_calls w))) as [[]|err] eqn:Hout.
    + split; [|done]. intros e.
      rewrite (verify_table_built _ _ w Hout). apply verify_pass_never_raises.
    + by rewrite (verify_table_refused _ _ w err Hout).
  - destruct (Args.dry_run args) eqn:Hd.
    + destruct (seed_services_spec (Args.environment args) true w I)
        as (s & w1 & Hrun & _).
      rewrite <- Hd in Hrun.
      by rewrite (main_seed_eq fuel args w s w1 Hv Hrun).
    + destruct (table_outcome w (length (table_calls w))) as [[]|err] eqn:Hout.
      * destruct (seed_services_spec (Args.environment args) false w Hout)
          as (s & w1 & Hrun & _).
        rewrite <- Hd in Hrun.
        rewrite (main_seed_eq fuel args w s w1 Hv Hrun). by split.
      * by rewrite (main_refused fuel args w err Hv Hd Hout).
Qed.

(** The calls of a seeding run of [main] that reaches the loop. *)
Lemma main_seed_calls fuel args w :
  Args.verify args = false → table_ready (Args.dry_run args) w →
  (if Args.dry_run args then put_calls (main fuel args w).2 = put_calls w
   else length (put_calls (main fuel args w).2) =
        (length (put_calls w) + 87)%nat) ∧
  scan_calls (main fuel args w).2 = scan_calls w ∧
  table_calls (main fuel args w).2 =
    table_calls (announced (Args.dry_run args) w).
Proof.
  intros Hv Hready.
  destruct (seed_services_spec_calls (Args.environment args)
              (Args.dry_run args) w Hready)
    as (s & w' & Hrun & c & w1 & (Hinv & Htc) & _ & Hw').
  rewrite (main_seed_eq fuel args w s _ Hv Hrun). subst w'.
  destruct Hinv as [_ _ _ _ _ _ _ Hscan _ (items & records & Hb & Hput & _)].
  assert (Hlen : length items = 87%nat).
  { rewrite (Forall2_length _ _ _ Hb). apply all_services_length. }
  assert (Hputs : ∀ w2 : World,
    put_calls w2 = put_calls w1 → scan_calls w2 = scan_calls w1 →
    table_calls w2 = table_calls w1 →
    (if Args.dry_run args then put_calls w2 = put_calls w
     else length (put_calls w2) = (length (put_calls w) + 87)%nat) ∧
    scan_calls w2 = scan_calls w ∧
    table_calls w2 = table_calls (announced (Args.dry_run args) w)).
  { intros w2 -> -> ->. split; [|split; [exact Hscan|exact Htc]].
    rewrite Hput. destruct (Args.dry_run args); cbn [announced put_calls].
    - by rewrite app_nil_r.
    - rewrite length_app. lia. }
  destruct (negb (Args.dry_run args) && (errors s =? 0));
    cbn [snd]; apply Hputs; reflexivity.
Qed.

(** X10. Which calls a run of [main] issues.  With [--verify] or with
    [--dry-run] there is no [put_item] call, and [--verify] wins over
    [--dry-run]: the seeding code is not run (no log record, no clock
    reading).  With neither flag there are exactly 87 [put_item] calls if
    the table handle is built, and none if building it raises.  Without
    [--verify] there is no [scan] call.  A dry run does not ask for the
    table handle; every other run asks for it once, for the table
    [master-integrations]. *)
Theorem main_storage_calls (fuel : nat) (args : Args.t) (w : World) :
  (if Args.verify args || Args.dry_run args
   then put_calls (main fuel args w).2 = put_calls w
   else
     match table_outcome w (length (table_calls w)) with
     | Returns _ =>
         length (put_calls (main fuel args w).2) =
         (length (put_calls w) + 87)%nat
     | Throws _ => put_calls (main fuel args w).2 = put_calls w
     end) ∧
  (if Args.verify args
   then log (main fuel args w).2 = log w ∧
        ticks (main fuel args w).2 = ticks w
   else scan_calls (main fuel args w).2 = scan_calls w) ∧
  (if negb (Args.verify args) && Args.dry_run args
   then table_calls (main fuel args w).2 = table_calls w
   else table_calls (main fuel args w).2 =
        table_calls w ++ ["master-integrations"]).
Proof.
  destruct (Args.verify args) eqn:Hv; cbn [negb andb orb].
  - unfold main. rewrite Hv.
    destruct (verify_table_frame fuel (Args.environment args) w)
      as (? & ? & ? & ?). done.
  - destruct (Args.dry_run args) eqn:Hd.
    + destruct (main_seed_calls fuel args w Hv) as (Hp & Hs & Ht).
      { by rewrite Hd. }
      rewrite Hd in Hp, Ht. done.
    + destruct (table_outcome w (length (table_calls w))) as [[]|err] eqn:Hout.
      * destruct (main_seed_calls fuel args w Hv) as (Hp & Hs & Ht).
        { by rewrite Hd. }
        rewrite Hd in Hp, Ht. done.
      * by rewrite (main_refused fuel args w err Hv Hd Hout).
Qed.

Lemma summary_lines_last (c : Counters) (l : list string) :
  last (l ++ summary_lines c) = Some (str_repeat "=" 80).
Proof.
  unfold summary_lines. rewrite !app_assoc.
  match goal with |- last (?l0 ++ [?a; ?b; ?c0; ?d; ?e]) = _ =>
    change (l0 ++ [a; b; c0; d; e]) with (l0 ++ [a; b; c0; d] ++ [e]) end.
  by rewrite app_assoc, last_snoc.
Qed.

Lemma hint_line_not_rule : str_repeat "=" 80 ≠ hint_line.
Proof. by vm_compute. Qed.

(** X11. Without [--verify], a run of [main] that reaches the seeding loop
    (a dry run, or a real run whose table handle is built) returns normally,
    and the last line it prints is the hint to run with [--verify] exactly
    when the run was real and none of its 87 writes failed; otherwise the
    last line is the closing rule of the summary. *)
Theorem main_hint (fuel : nat) (args : Args.t) (w : World) :
  Args.verify args = false →
  table_ready (Args.dry_run args) w →
  ∃ w', main fuel args w = (Ok (), w') ∧
        (last (stdout w') = Some hint_line ↔
         Args.dry_run args = false ∧
         count_throws (put_item_outcome w) (length (put_calls w)) 87 = 0) ∧
        (last (stdout w') = Some hint_line ∨
         last (stdout w') = Some (str_repeat "=" 80)).
Proof.
  intros Hv Hready.
  destruct (seed_services_spec (Args.environment args) (Args.dry_run args) w
              Hready)
    as (s & w' & Hrun & c & w1 & Hinv & -> & ->).
  rewrite (main_seed_eq fuel args w _ _ Hv Hrun). eexists. split; [done|].
  destruct Hinv as [_ _ He _ _ _ _ _ _ _].
  cbn [stats errors zeroed announced put_item_outcome put_calls] in He.
  rewrite all_services_length in He.
  destruct (Args.dry_run args); cbn [negb andb].
  - cbn [printed stdout]. rewrite summary_lines_last. split; [|by right].
    split; [|by intros [? _]].
    intros H. exfalso. apply hint_line_not_rule. congruence.
  - destruct (errors (stats c) =? 0) eqn:Hz.
    + apply Z.eqb_eq in Hz. cbn [printed stdout]. rewrite last_snoc.
      split; [|by left]. split; [intros _; split; [done|lia]|done].
    + apply Z.eqb_neq in Hz. cbn [printed stdout].
      rewrite summary_lines_last. split; [|by right]. split.
      * intros H. exfalso. apply hint_line_not_rule. congruence.
      * intros [_ H]. lia.
Qed.

Lemma main_hint_seed_dev :
  ∃ w', main 0 seed_dev calm = (Ok (), w') ∧
        (last (stdout w') = Some hint_line ↔
         Args.dry_run seed_dev = false ∧
         count_throws (put_item_outcome calm) (length (put_calls calm)) 87
           = 0) ∧
        (last (stdout w') = Some hint_line ∨
         last (stdout w') = Some (str_repeat "=" 80)).
Proof.
  refine (main_hint 0 seed_dev calm _ _).
  - reflexivity.
  - vm_compute. reflexivity.
Defined.

(** * Records, log and summary of [seed_services] agree *)

Lemma built_from_flags item e :
  built_from item e →
  (assetsEnabled item = "true" ↔
     Config.service e.1 ∈ ASSETS_ENABLED_SERVICES) ∧
  (dataDiscoveryEnabled item = "true" ↔
     Config.service e.1 ∈ DATA_DISCOVERY_ENABLED_SERVICES) ∧
  cspmEnabled item = "true".
Proof.
  intros [w H]. cbn in H. injection H as <-. cbn.
  split; [|split; [|done]]; rewrite flag_true; apply member_true.
Qed.

Lemma flagged_lengths items (l : list (Config.t * string)) :
  Forall2 built_from items l →
  length (filter (λ item, assetsEnabled item = "true") items) =
    length (filter (λ e, Config.service e.1 ∈ ASSETS_ENABLED_SERVICES) l) ∧
  length (filter (λ item, dataDiscoveryEnabled item = "true") items) =
    length (filter
              (λ e, Config.service e.1 ∈ DATA_DISCOVERY_ENABLED_SERVICES) l) ∧
  length (filter (λ item, cspmEnabled item = "true") items) = length l.
Proof.
  induction 1 as [|item e items l Hb _ (IH1 & IH2 & IH3)]; [done|].
  destruct (built_from_flags item e Hb) as (Ha & Hd & Hc).
  split; [|split].
  - destruct (decide (assetsEnabled item = "true")) as [Hy|Hn].
    + rewrite filter_cons_True by done.
      rewrite (filter_cons_True (λ e, Config.service e.1 ∈ _))
        by (by apply Ha).
      simpl. by rewrite IH1.
    + rewrite filter_cons_False by done.
      rewrite (filter_cons_False (λ e, Config.service e.1 ∈ _))
        by (by rewrite <- Ha).
      done.
  - destruct (decide (dataDiscoveryEnabled item = "true")) as [Hy|Hn].
    + rewrite filter_cons_True by done.
      rewrite (filter_cons_True (λ e, Config.service e.1 ∈ _))
        by (by apply Hd).
      simpl. by rewrite IH2.
    + rewrite filter_cons_False by done.
      rewrite (filter_cons_False (λ e, Config.service e.1 ∈ _))
        by (by rewrite <- Hd).
      done.
  - rewrite filter_cons_True by done. simpl. by rewrite IH3.
Qed.

Lemma catalogue_coverage :
  length (filter (λ e : Config.t * string,
                    Config.service e.1 ∈ ASSETS_ENABLED_SERVICES)
                 all_services) =
    length (sorted_set ASSETS_ENABLED_SERVICES) ∧
  length (filter (λ e : Config.t * string,
                    Config.service e.1 ∈ DATA_DISCOVERY_ENABLED_SERVICES)
                 all_services) =
    length (sorted_set DATA_DISCOVERY_ENABLED_SERVICES).
Proof. split; by vm_compute. Qed.

(** X12. The coverage figures of the summary are computed from the two
    feature sets, not from the records; they are nevertheless the numbers
    of records that a real run (one whose table handle is built, so that it
    writes and prints) writes with the flag set: as many items with
    [assetsEnabled] equal to ["true"] as the summary prints for Assets (8),
    as many with [dataDiscoveryEnabled] equal to ["true"] as it prints for
    Data Discovery (10), and all 87 with [cspmEnabled] equal to ["true"]. *)
Theorem seed_services_coverage_matches (environment : string) (w : World) :
  table_built w →
  ensures (seed_services environment false) w (λ s w',
    ∃ items,
      put_calls w' = put_calls w ++ items ∧
      length (filter (λ item, assetsEnabled item = "true") items) =
        length (sorted_set ASSETS_ENABLED_SERVICES) ∧
      length (sorted_set ASSETS_ENABLED_SERVICES) = 8%nat ∧
      length (filter (λ item, dataDiscoveryEnabled item = "true") items) =
        length (sorted_set DATA_DISCOVERY_ENABLED_SERVICES) ∧
      length (sorted_set DATA_DISCOVERY_ENABLED_SERVICES) = 10%nat ∧
      Z.of_nat (length (filter (λ item, cspmEnabled item = "true") items)) =
        processed s).
Proof.
  intros Hbuilt.
  eapply ensures_mono; [by apply seed_services_spec|].
  intros s w' (c & w1 & [Hp _ _ _ _ _ _ _ _ Htrace] & -> & ->).
  destruct Htrace as (items & records & Hb & Hput & _).
  destruct (flagged_lengths items all_services Hb) as (Ha & Hd & Hc).
  destruct catalogue_coverage as (Ha' & Hd').
  exists items. split; [exact Hput|].
  split; [by rewrite Ha|]. split; [by vm_compute|].
  split; [by rewrite Hd|]. split; [by vm_compute|].
  rewrite Hc, Hp. cbn [stats processed]. lia.
Qed.

Lemma seed_services_coverage_matches_calm :
  ∃ s w' items,
    seed_services "dev" false calm = (Ok s, w') ∧
    put_calls w' = items ∧
    length (filter (λ item, assetsEnabled item = "true") items) = 8%nat ∧
    length (filter (λ item, dataDiscoveryEnabled item = "true") items) =
      10%nat.
Proof.
  destruct (seed_services_coverage_matches "dev" calm)
    as (s & w' & Hrun & items & Hput & Ha & Ha' & Hd & Hd' & _).
  { vm_compute. reflexivity. }
  exists s, w', items. split; [exact Hrun|]. split; [exact Hput|].
  split; congruence.
Defined.

Lemma error_records_snoc records r :
  error_records (records ++ [r]) =
  error_records records + (if decide (r.1 = ERROR) then 1 else 0).
Proof.
  unfold error_records. rewrite filter_app, length_app.
  destruct (decide (r.1 = ERROR)).
  - rewrite filter_cons_True by done. simpl. lia.
  - rewrite filter_cons_False by done. simpl. lia.
Qed.

Lemma seed_loop_error_records dry_run (l : list (Config.t * string)) c0 w0 :
  ensures (for_each l (seed_one dry_run) c0) w0 (λ c w',
    loop_inv dry_run c0 w0 l c w' ∧
    length (drop (length (log w0)) (log w')) = length l ∧
    error_records (drop (length (log w0)) (log w')) =
      errors (stats c) - errors (stats c0)).
Proof.
  apply (ensures_for_each (λ done c w',
    loop_inv dry_run c0 w0 done c w' ∧
    length (drop (length (log w0)) (log w')) = length done ∧
    error_records (drop (length (log w0)) (log w')) =
      errors (stats c) - errors (stats c0))).
  - split; [apply loop_inv_start|]. rewrite drop_all. split; [done|].
    unfold error_records. simpl. lia.
  - intros done e c w (Hinv & Hlen & Herr).
    eapply ensures_mono; [apply seed_one_spec|].
    intros c' w' Hstep. split; [by eapply loop_inv_step|].
    destruct Hinv as [_ _ _ _ _ _ _ _ _ (items & records & _ & _ & Hlog & _)].
    assert (Hle : (length (log w0) ≤ length (log w))%nat)
      by (rewrite Hlog, length_app; lia).
    destruct Hstep as (item & _ & _ & _ & _ & _ & _ & _ & _ & Hmode).
    destruct dry_run.
    + destruct Hmode as (_ & He & _ & names & ->).
      rewrite drop_app_le, !length_app, error_records_snoc by done.
      cbn [fst length]. rewrite decide_False by done. split; lia.
    + destruct Hmode as (_ & Hmode).
      destruct (put_item_outcome w (length (put_calls w))) as [[]|err];
        destruct Hmode as (_ & He & ->);
        rewrite drop_app_le, !length_app, error_records_snoc by done;
        cbn [fst length].
      * rewrite decide_False by done. split; lia.
      * rewrite decide_True by done. split; lia.
Qed.

(** X13. The log and the returned counts of [seed_services] agree: a run
    that reaches its loop (a dry run, or a real run whose table handle is
    built) emits after its opening record exactly one record per entry, and
    the number of those of level [ERROR] is the returned [errors]; the
    others, of level [INFO], number [written]. *)
Theorem seed_services_log_matches (environment : string) (dry_run : bool)
    (w : World) :
  table_ready dry_run w →
  ensures (seed_services environment dry_run) w (λ s w',
    length (drop (S (length (log w))) (log w')) = 87%nat ∧
    error_records (drop (S (length (log w))) (log w')) = errors s ∧
    Z.of_nat (length (drop (S (length (log w))) (log w'))) -
      error_records (drop (S (length (log w))) (log w')) = written s).
Proof.
  intros Hready.
  eapply ensures_mono;
    [apply seed_services_post; [done|apply seed_loop_error_records]|].
  intros s w' (c & w1 & ([Hp Hw _ _ _ _ _ _ _ _] & Hlen & Herr) & -> & ->).
  rewrite all_services_length in *.
  cbn [stats processed written errors zeroed] in *.
  assert (Hn : length (log (announced dry_run w)) = S (length (log w))).
  { cbn. rewrite length_app. simpl. lia. }
  rewrite Hn in Hlen, Herr. cbn [printed log].
  rewrite Hlen, Herr. repeat split; lia.
Qed.

Lemma seed_services_log_matches_one_failure :
  ensures (seed_services "dev" false) first_put_fails (λ s w',
    length (drop (S (length (log first_put_fails))) (log w')) = 87%nat ∧
    error_records (drop (S (length (log first_put_fails))) (log w')) =
      errors s ∧
    Z.of_nat (length (drop (S (length (log first_put_fails))) (log w'))) -
      error_records (drop (S (length (log first_put_fails))) (log w')) =
      written s).
Proof.
  refine (seed_services_log_matches "dev" false first_put_fails _).
  vm_compute. reflexivity.
Defined.

Lemma built_from_agree item1 item2 e :
  built_from item1 e → built_from item2 e →
  agree_except_timestamps item1 item2.
Proof.
  intros [w1 H1] [w2 H2]. cbn in H1, H2.
  injection H1 as <-. injection H2 as <-. by repeat split.
Qed.

Lemma built_from_all_agree items1 items2 (l : list (Config.t * string)) :
  Forall2 built_from items1 l → Forall2 built_from items2 l →
  Forall2 agree_except_timestamps items1 items2.
Proof.
  intros H1. revert items2.
  induction H1 as [|item1 e items1 l Hb1 _ IH]; intros items2 H2.
  - apply Forall2_nil_inv_r in H2 as ->. constructor.
  - apply Forall2_cons_inv_r in H2 as (item2 & items2' & Hb2 & H2 & ->).
    constructor; [by eapply built_from_agree|]. by apply IH.
Qed.

(** X14. Seeding is repeatable: when a real run is followed by a second
    real run (the table handle being built for each), the second passes to
    [put_item] as many items as the first, in the same order, and each
    agrees with the item that the first run wrote at that position on every
    field except the two timestamps, whatever the outcome of each write. *)
Theorem seed_services_rerun (environment : string) (w : World) :
  table_built w →
  table_outcome w (S (length (table_calls w))) = Returns () →
  ensures (seed_services environment false) w (λ _ w1,
    ensures (seed_services environment false) w1 (λ _ w2,
      ∃ items1 items2,
        put_calls w1 = put_calls w ++ items1 ∧
        put_calls w2 = put_calls w1 ++ items2 ∧
        Forall2 agree_except_timestamps items1 items2)).
Proof.
  intros Hbuilt Hagain.
  eapply ensures_mono; [by apply seed_services_spec_calls|].
  intros s1 w1' (c1 & w1 & ([_ _ _ _ _ Ho1 _ _ _ Ht1] & Hcalls) & _ & ->).
  destruct Ht1 as (items1 & records1 & Hb1 & Hput1 & _).
  assert (Hbuilt2 : table_built (printed (summary_lines c1) w1)).
  { destruct Ho1 as (_ & _ & _ & Hto). unfold table_built.
    cbn [printed table_outcome table_calls].
    rewrite Hto, Hcalls. cbn [announced table_outcome table_calls].
    rewrite length_app. simpl length.
    by replace (length (table_calls w) + 1)%nat
      with (S (length (table_calls w))) by lia. }
  eapply ensures_mono; [by apply seed_services_spec|].
  intros s2 w2' (c2 & w2 & [_ _ _ _ _ _ _ _ _ Ht2] & _ & ->).
  destruct Ht2 as (items2 & records2 & Hb2 & Hput2 & _).
  exists items1, items2. split; [exact Hput1|]. split; [exact Hput2|].
  by eapply built_from_all_agree.
Qed.

Lemma seed_services_rerun_calm :
  ensures (seed_services "dev" false) calm (λ _ w1,
    ensures (seed_services "dev" false) w1 (λ _ w2,
      ∃ items1 items2,
        put_calls w1 = put_calls calm ++ items1 ∧
        put_calls w2 = put_calls w1 ++ items2 ∧
        Forall2 agree_except_timestamps items1 items2)).
Proof.
  refine (seed_services_rerun "dev" calm _ _); vm_compute; reflexivity.
Defined.

(** The verification pass over an empty table. *)
Lemma verify_pass_empty (fuel : nat) (w : World) (first : ScanResponse) :
  scan_outcome w (length (scan_calls w)) = Returns first →
  LastEvaluatedKey first = None →
  page_items first = [] →
  ∃ w', verify_pass fuel w = (Ok (), w') ∧
        scan_calls w' = scan_calls w ++ [None] ∧
        stdout w' = stdout w ++
          [ "Verifying master-integrations table: master-integrations";
            str_repeat "=" 80;
            "Total items: 0";
            newline +:+ "By provider:";
            newline +:+ "By category:";
            newline +:+ "Feature coverage:";
            "  CSPM enabled: 0";
            "  Assets enabled: 0";
            "  Data Discovery enabled: 0";
            newline +:+ "Services with Assets feature:";
            newline +:+ "Services with Data Discovery feature:";
            str_repeat "=" 80 ].
Proof.
  intros Hfirst Hlast Hitems.
  eexists. split; [|split].
  - unfold verify_pass. rewrite !bind_print, printed_printed.
    unfold mbind, M_bind at 1. unfold try_except.
    rewrite (verify_body_pages fuel (printed _ w) first [] Hfirst Hlast
               ltac:(simpl; lia)).
    rewrite print_eq, printed_printed. reflexivity.
  - reflexivity.
  - cbn [printed scanned_all stdout]. rewrite <- !app_assoc.
    f_equal. cbn [fmap list_fmap concat]. rewrite Hitems. by vm_compute.
Qed.

(** X15. An empty table: when the table handle is built and the first read
    returns a response without continuation key and without items (the key
    ['Items'] absent, or present with an empty list), [verify_table] stops
    after that one read and reports zero items, no provider, no category and
    zero for each feature. *)
Theorem verify_table_empty (environment : string) (fuel : nat) (w : World)
    (first : ScanResponse) :
  table_built w →
  scan_outcome w (length (scan_calls w)) = Returns first →
  LastEvaluatedKey first = None →
  page_items first = [] →
  ∃ w', verify_table fuel environment w = (Ok (), w') ∧
        scan_calls w' = scan_calls w ++ [None] ∧
        stdout w' = stdout w ++
          [ "Verifying master-integrations table: master-integrations";
            str_repeat "=" 80;
            "Total items: 0";
            newline +:+ "By provider:";
            newline +:+ "By category:";
            newline +:+ "Feature coverage:";
            "  CSPM enabled: 0";
            "  Assets enabled: 0";
            "  Data Discovery enabled: 0";
            newline +:+ "Services with Assets feature:";
            newline +:+ "Services with Data Discovery feature:";
            str_repeat "=" 80 ].
Proof.
  intros Hbuilt Hfirst Hlast Hitems.
  rewrite (verify_table_built fuel environment w Hbuilt).
  exact (verify_pass_empty fuel (connected w) first Hfirst Hlast Hitems).
Qed.

Lemma verify_table_empty_table :
  ∃ w', verify_table 0 "dev" empty_table = (Ok (), w') ∧
        scan_calls w' = scan_calls empty_table ++ [None] ∧
        stdout w' = stdout empty_table ++
          [ "Verifying master-integrations table: master-integrations";
            str_repeat "=" 80;
            "Total items: 0";
            newline +:+ "By provider:";
            newline +:+ "By category:";
            newline +:+ "Feature coverage:";
            "  CSPM enabled: 0";
            "  Assets enabled: 0";
            "  Data Discovery enabled: 0";
            newline +:+ "Services with Assets feature:";
            newline +:+ "Services with Data Discovery feature:";
            str_repeat "=" 80 ].
Proof.
  refine (verify_table_empty "dev" 0 empty_table (mkScanResponse None None)
            _ _ _ _); reflexivity.
Defined.

(** * The table handle in [seed_services] *)

(** X16. A dry run never asks for the table handle and returns normally in
    every world, also where no handle could be built.  A real run asks for
    the handle of [master-integrations] once, after its opening log record
    and outside any [try]: if the handle is built the run returns normally;
    if building it raises, that exception leaves [seed_services] and the
    run has read no clock, issued no [put_item] call, printed nothing and
    logged nothing but the opening record. *)
Theorem seed_services_handle (environment : string) (w : World) :
  (∃ s w', seed_services environment true w = (Ok s, w') ∧
           table_calls w' = table_calls w) ∧
  match table_outcome w (length (table_calls w)) with
  | Returns _ =>
      ∃ s w', seed_services environment false w = (Ok s, w') ∧
              table_calls w' = table_calls w ++ ["master-integrations"]
  | Throws err =>
      ∃ w', seed_services environment false w = (Raise err, w') ∧
            table_calls w' = table_calls w ++ ["master-integrations"] ∧
            log w' = log w ++
              [(INFO, "Seeding services to table: master-integrations")] ∧
            ticks w' = ticks w ∧ put_calls w' = put_calls w ∧
            scan_calls w' = scan_calls w ∧ stdout w' = stdout w
  end.
Proof.
  split.
  - destruct (seed_services_spec_calls environment true w I)
      as (s & w' & Hrun & c & w1 & (_ & Htc) & _ & ->).
    exists s, (printed (summary_lines c) w1). split; [exact Hrun|exact Htc].
  - destruct (table_outcome w (length (table_calls w))) as [[]|err] eqn:Hout.
    + destruct (seed_services_spec_calls environment false w Hout)
        as (s & w' & Hrun & c & w1 & (_ & Htc) & _ & ->).
      exists s, (printed (summary_lines c) w1).
      split; [exact Hrun|exact Htc].
    + exists (announced false w).
      split; [exact (seed_services_refused environment w err Hout)|].
      by repeat split.
Qed.
